(** * docling-bedrock-plugin: configuration record and picture-description splicing

    A shallow embedding of
      - [docling_bedrock_plugin/pipeline_options.py]
          (class [PictureDescriptionBedrockApiOptions]),
      - [examples/bedrock_image_description.py]
          (function [add_bedrock_picture_descriptions]),
      - [examples/image_description.py]
          (function [describe_image]),
    together with the statements the specification makes about them.

    Python objects that are mutated in place live in an explicit store: the
    document is a record of lists, a picture or text item is named by its
    position in [doc.pictures] or [doc.texts], and every mutation is a
    function from document to document.  Calls that may raise return a
    [result]. *)

From Stdlib Require Import Ascii String ZArith QArith.
From stdpp Require Import base list strings pretty gmap.

Local Open Scope string_scope.

(** ** Python strings *)

(** [str.startswith]. *)
Definition startswith (s p : string) : bool := String.prefix p s.

(** The characters [str.strip] removes when called without an argument
    (the ASCII ones: tab, line feed, vertical tab, form feed, carriage
    return, the four separators and the space). *)
Definition isspace (c : ascii) : bool :=
  let n := nat_of_ascii c in
  ((9 <=? n) && (n <=? 13))%nat || ((28 <=? n) && (n <=? 32))%nat.

Fixpoint lstrip (s : string) : string :=
  match s with
  | String c s' => if isspace c then lstrip s' else s
  | EmptyString => EmptyString
  end.

Fixpoint rstrip (s : string) : string :=
  match s with
  | EmptyString => EmptyString
  | String c s' =>
      match rstrip s' with
      | EmptyString => if isspace c then EmptyString else String c EmptyString
      | r => String c r
      end
  end.

Definition strip (s : string) : string := rstrip (lstrip s).

(** Truth value of a string: empty is false. *)
Definition nonempty (s : string) : bool :=
  match s with EmptyString => false | String _ _ => true end.

(** ** Exceptions *)

(** An instance of Python's [Exception]; [str(e)] is its message.  Both
    example scripts catch with [except Exception]. *)
Record Exception := { str : string }.

Inductive result (A : Type) : Type :=
| Return (a : A)
| Raise (e : Exception).
Arguments Return {A} a.
Arguments Raise {A} e.

Definition bind {A B} (m : result A) (k : A -> result B) : result B :=
  match m with
  | Return a => k a
  | Raise e => Raise e
  end.

(** [try: body except Exception as e: handler(e)]. *)
Definition try_except {A} (body : result A) (handler : Exception -> result A)
  : result A :=
  match body with
  | Return a => Return a
  | Raise e => handler e
  end.

Notation "'let*' x := m 'in' k" := (bind m (fun x => k))
  (at level 10, x name, m at level 100, k at level 200).

(** ** The configuration record (pipeline_options.py) *)

(** The host framework's [PictureDescriptionBaseOptions], from which the
    plugin's options inherit.  The plugin reads none of its fields; they are
    carried along as the keyword settings the caller gave. *)
Record PictureDescriptionBaseOptions := { base_settings : list (string * string) }.

(** What a field annotated [float] holds: a float, written as the exact
    rational of its literal, or the int its default is written as in the
    class body (a default is stored as it stands). *)
Inductive number :=
| Int (z : Z)
| Float (q : Q).

(** The fields of an instance, after the inherited base options.  A float
    is written as the exact rational of its literal. *)
Record PictureDescriptionBedrockApiOptions := {
  base : PictureDescriptionBaseOptions;
  model_id : string;
  region_name : option string;
  profile_name : option string;
  timeout : number;
  max_workers : Z;
  temperature : Q;
  max_tokens : Z;
  top_k : Z;
  prompt : string;
  provenance : string
}.

(** The class attribute [kind: ClassVar[Literal["bedrock_api"]]]: one value
    for the class, not a field of its instances. *)
Definition kind : string := "bedrock_api".

(** The defaults of the class body: [PictureDescriptionBedrockApiOptions()]
    over given base options. *)
Definition default_options (b : PictureDescriptionBaseOptions)
  : PictureDescriptionBedrockApiOptions :=
  {| base := b;
     model_id := "anthropic.claude-3-sonnet-20240229-v1:0";
     region_name := None;
     profile_name := None;
     timeout := Int 30;
     max_workers := 3;
     temperature := 1 # 2;
     max_tokens := 200;
     top_k := 250;
     prompt := "Describe this image in a few sentences.";
     provenance := "amazon-bedrock" |}.

(** The annotated assignments of the class body, in source order. *)
Inductive py_type :=
| Tstr | Tint | Tfloat
| Toptional (t : py_type)
| Tclassvar (t : py_type)
| Tliteral (s : string).

Inductive py_value :=
| Vstr (s : string) | Vint (z : Z) | Vfloat (q : Q) | Vnone.

Record declaration := {
  decl_name : string;
  decl_type : py_type;
  decl_default : py_value
}.

Definition class_body : list declaration :=
  [ {| decl_name := "kind"; decl_type := Tclassvar (Tliteral "bedrock_api");
       decl_default := Vstr "bedrock_api" |};
    {| decl_name := "model_id"; decl_type := Tstr;
       decl_default := Vstr "anthropic.claude-3-sonnet-20240229-v1:0" |};
    {| decl_name := "region_name"; decl_type := Toptional Tstr;
       decl_default := Vnone |};
    {| decl_name := "profile_name"; decl_type := Toptional Tstr;
       decl_default := Vnone |};
    {| decl_name := "timeout"; decl_type := Tfloat;
       decl_default := Vint 30 |};
    {| decl_name := "max_workers"; decl_type := Tint;
       decl_default := Vint 3 |};
    {| decl_name := "temperature"; decl_type := Tfloat;
       decl_default := Vfloat (1 # 2) |};
    {| decl_name := "max_tokens"; decl_type := Tint;
       decl_default := Vint 200 |};
    {| decl_name := "top_k"; decl_type := Tint;
       decl_default := Vint 250 |};
    {| decl_name := "prompt"; decl_type := Tstr;
       decl_default := Vstr "Describe this image in a few sentences." |};
    {| decl_name := "provenance"; decl_type := Tstr;
       decl_default := Vstr "amazon-bedrock" |} ].

Definition is_classvar (d : declaration) : bool :=
  match decl_type d with Tclassvar _ => true | _ => false end.

(** The fields the class adds to its instances: every annotated name of
    the body that is not a [ClassVar]. *)
Definition own_fields : list declaration :=
  List.filter (fun d => negb (is_classvar d)) class_body.

(** Attribute read by name on an options instance ([getattr]).  A name of
    the class body reads the class attribute or the instance's field of that
    name; every other name is read on what the instance inherits from the
    host's base options, [inherited], which answers [None] for a name the
    base class does not have either. *)
Definition getattr
  (inherited : PictureDescriptionBaseOptions -> string -> option py_value)
  (o : PictureDescriptionBedrockApiOptions) (name : string)
  : option py_value :=
  if String.eqb name "kind" then Some (Vstr kind)
  else if String.eqb name "model_id" then Some (Vstr (model_id o))
  else if String.eqb name "region_name" then
    Some (match region_name o with Some s => Vstr s | None => Vnone end)
  else if String.eqb name "profile_name" then
    Some (match profile_name o with Some s => Vstr s | None => Vnone end)
  else if String.eqb name "timeout" then
    Some (match timeout o with Int z => Vint z | Float q => Vfloat q end)
  else if String.eqb name "max_workers" then Some (Vint (max_workers o))
  else if String.eqb name "temperature" then Some (Vfloat (temperature o))
  else if String.eqb name "max_tokens" then Some (Vint (max_tokens o))
  else if String.eqb name "top_k" then Some (Vint (top_k o))
  else if String.eqb name "prompt" then Some (Vstr (prompt o))
  else if String.eqb name "provenance" then Some (Vstr (provenance o))
  else inherited (base o) name.

(** ** The host document (docling-core), as far as the example touches it *)

(** A JSON pointer to another node; the constructor keyword is [cref]. *)
Record RefItem := { cref : string }.

(** Some of the host's labels; the example uses [CAPTION]. *)
Inductive DocItemLabel :=
| CAPTION | FOOTNOTE | LIST_ITEM | PARAGRAPH | SECTION_HEADER | TEXT | TITLE.

(** An entry of [picture.annotations].  The example adds
    [PictureDescriptionData(text=..., provenance=...)]; whatever else the
    host stored there is kept as it is. *)
Inductive PictureDataType :=
| PictureDescriptionData (text provenance : string)
| PictureMiscData (content : string).

Record PictureItem := {
  picture_self_ref : string;
  picture_parent : option RefItem;
  captions : list RefItem;
  annotations : list PictureDataType
}.

Record TextItem := {
  text_self_ref : string;
  text_parent : option RefItem;
  text_children : list RefItem;
  label : DocItemLabel;
  orig : string;
  text : string
}.

Record GroupItem := {
  group_self_ref : string;
  group_parent : option RefItem;
  group_children : list RefItem
}.

(** What every node of the document tree has (the host's [NodeItem]). *)
Class NodeItem (A : Type) := {
  self_ref : A -> string;
  parent : A -> option RefItem
}.

#[export] Instance PictureItem_node : NodeItem PictureItem :=
  {| self_ref := picture_self_ref; parent := picture_parent |}.
#[export] Instance TextItem_node : NodeItem TextItem :=
  {| self_ref := text_self_ref; parent := text_parent |}.
#[export] Instance GroupItem_node : NodeItem GroupItem :=
  {| self_ref := group_self_ref; parent := group_parent |}.

Record DoclingDocument := {
  body : GroupItem;
  groups : list GroupItem;
  texts : list TextItem;
  pictures : list PictureItem
}.

(** *** In-place updates, as functions on the document *)

Definition with_pictures (f : list PictureItem -> list PictureItem)
  (doc : DoclingDocument) : DoclingDocument :=
  {| body := body doc; groups := groups doc; texts := texts doc;
     pictures := f (pictures doc) |}.

Definition with_texts (f : list TextItem -> list TextItem)
  (doc : DoclingDocument) : DoclingDocument :=
  {| body := body doc; groups := groups doc; texts := f (texts doc);
     pictures := pictures doc |}.

Definition with_groups (f : list GroupItem -> list GroupItem)
  (doc : DoclingDocument) : DoclingDocument :=
  {| body := body doc; groups := f (groups doc); texts := texts doc;
     pictures := pictures doc |}.

Definition with_body (f : GroupItem -> GroupItem)
  (doc : DoclingDocument) : DoclingDocument :=
  {| body := f (body doc); groups := groups doc; texts := texts doc;
     pictures := pictures doc |}.

(** [picture.annotations.append(a)] *)
Definition append_annotation (a : PictureDataType) (p : PictureItem) : PictureItem :=
  {| picture_self_ref := picture_self_ref p; picture_parent := picture_parent p;
     captions := captions p; annotations := annotations p ++ [a] |}.

(** [picture.captions.append(r)] *)
Definition append_caption (r : RefItem) (p : PictureItem) : PictureItem :=
  {| picture_self_ref := picture_self_ref p; picture_parent := picture_parent p;
     captions := captions p ++ [r]; annotations := annotations p |}.

(** [item.text += s] *)
Definition append_text (s : string) (t : TextItem) : TextItem :=
  {| text_self_ref := text_self_ref t; text_parent := text_parent t;
     text_children := text_children t; label := label t; orig := orig t;
     text := text t +:+ s |}.

Definition text_append_child (r : RefItem) (t : TextItem) : TextItem :=
  {| text_self_ref := text_self_ref t; text_parent := text_parent t;
     text_children := text_children t ++ [r]; label := label t; orig := orig t;
     text := text t |}.

Definition group_append_child (r : RefItem) (g : GroupItem) : GroupItem :=
  {| group_self_ref := group_self_ref g; group_parent := group_parent g;
     group_children := group_children g ++ [r] |}.

(** A reference to a node object that can be the parent of a text item:
    an element of [doc.texts], an element of [doc.groups], or [doc.body]. *)
Inductive node :=
| text_node (j : nat)
| group_node (j : nat)
| body_node.

(** [parent.get_ref()] *)
Definition get_ref (doc : DoclingDocument) (n : node) : RefItem :=
  {| cref := match n with
             | text_node j => from_option self_ref "" (texts doc !! j)
             | group_node j => from_option self_ref "" (groups doc !! j)
             | body_node => self_ref (body doc)
             end |}.

(** [parent.children.append(r)] *)
Definition append_child (n : node) (r : RefItem) (doc : DoclingDocument)
  : DoclingDocument :=
  match n with
  | text_node j => with_texts (alter (text_append_child r) j) doc
  | group_node j => with_groups (alter (group_append_child r) j) doc
  | body_node => with_body (group_append_child r) doc
  end.

(** The host's [doc.add_text(label=..., text=..., parent=...)] for a label
    that has no item class of its own (a caption is one): the new item is
    appended to [doc.texts] under the pointer [#/texts/<index>], linked
    from its parent's children, and returned. *)
Definition add_text (lbl : DocItemLabel) (txt : string) (prt : node)
  (doc : DoclingDocument) : DoclingDocument * TextItem :=
  let text_index := length (texts doc) in
  let new_ref := "#/texts/" +:+ pretty text_index in
  let text_item :=
    {| text_self_ref := new_ref; text_parent := Some (get_ref doc prt);
       text_children := []; label := lbl; orig := txt; text := txt |} in
  let doc := with_texts (fun ts => (ts ++ [text_item])%list) doc in
  (append_child prt {| cref := new_ref |} doc, text_item).

(** [next((t for t in items if t.self_ref == r), None)], with the position
    of the item that was found. *)
Definition find_ref `{NodeItem A} (r : string) (items : list A) : option (nat * A) :=
  list_find (fun t => self_ref t = r) items.

(** ** The adapter *)

(** The adapter object the examples talk to: it keeps the options it was
    built from, and [bedrock_model.provenance] is read when a description is
    stored. *)
Record PictureDescriptionBedrockApiModel := {
  options : PictureDescriptionBedrockApiOptions;
  model_provenance : string
}.

(** Modelled from the spec: the constructor of the adapter class
    [PictureDescriptionBedrockApiModel] (picture_description_model.py is not
    among the sources).  Setting up the connection to the remote service may
    raise; otherwise the adapter keeps its options, and the provenance it
    reports is the provenance tag of that configuration. *)
Definition new_model (connect : PictureDescriptionBedrockApiOptions -> result unit)
  (opts : PictureDescriptionBedrockApiOptions)
  : result PictureDescriptionBedrockApiModel :=
  let* _ := connect opts in
  Return {| options := opts; model_provenance := provenance opts |}.

(** ** examples/bedrock_image_description.py and examples/image_description.py *)

Definition description_prefix : string :=
  String "010" (String "010" "Image Description: ").

(** The guard of the splicing loop:
    [not description.startswith("Error") and not description.startswith("Unsupported")]. *)
Definition accepted (description : string) : bool :=
  negb (startswith description "Error")
  && negb (startswith description "Unsupported").

(** The parent under which a new caption is created: the picture's parent
    looked up among the texts, then among the groups, and the document body
    when the picture has no parent or the pointer names neither. *)
Definition find_parent (doc : DoclingDocument) (picture : PictureItem) : node :=
  let parent_ref :=
    match parent picture with Some r => Some (cref r) | None => None end in
  match parent_ref with
  | Some r =>
      if nonempty r then
        match find_ref r (texts doc) with
        | Some (j, _) => text_node j
        | None =>
            match find_ref r (groups doc) with
            | Some (j, _) => group_node j
            | None => body_node
            end
        end
      else body_node
  | None => body_node
  end.

Section Examples.

(** What lies outside the repository is a parameter of the development. *)
Context {Image : Type}.

(** [PictureDescriptionBedrockApiModel(enabled=True, ..., options=bedrock_options, ...)]:
    the adapter, or the exception its constructor raises. *)
Variable init_model :
  PictureDescriptionBedrockApiOptions -> result PictureDescriptionBedrockApiModel.

(** [list(bedrock_model._annotate_images(images))]: the descriptions the
    adapter yields for a batch, or the exception it raises. *)
Variable annotate_images :
  PictureDescriptionBedrockApiModel -> list Image -> result (list string).

(** [picture.get_image(doc=doc)]: an image, [None], or an exception. *)
Variable get_image : DoclingDocument -> PictureItem -> result (option Image).

(** [Image.open(path)]. *)
Variable Image_open : string -> result Image.

(** The example reads the pointer of a picture's first caption reference
    as [caption_ref_list[0].ref], whereas it builds references with
    [RefItem(cref=...)] and reads a parent's pointer as [.cref].  What the
    host answers to [.ref] is left open: the pointer, or an exception. *)
Variable ref : RefItem -> result string.

(** One round of the loop [for picture, description in zip(...)], for the
    picture at position [i] of [doc.pictures] (a work item always names a
    picture of the document).  The document that results is returned also
    when the round raises: what was mutated stays mutated.  Every element of
    [doc.texts] is a [TextItem], so [isinstance(caption_item, TextItem)]
    fails only for [None]; the item [add_text] returns is an object, so
    [if new_caption_item] holds. *)
Definition splice (bedrock_model : PictureDescriptionBedrockApiModel)
  (i : nat) (description : string) (doc : DoclingDocument)
  : DoclingDocument * result unit :=
  match pictures doc !! i with
  | None => (doc, Return tt)
  | Some picture =>
      if accepted description then
        let doc :=
          with_pictures
            (alter (append_annotation
                      (PictureDescriptionData description
                         (model_provenance bedrock_model))) i) doc in
        let caption_ref_list := captions picture in
        match caption_ref_list with
        | first :: _ =>
            match ref first with
            | Raise e => (doc, Raise e)
            | Return caption_item_ref =>
                match find_ref caption_item_ref (texts doc) with
                | Some (j, _) =>
                    (with_texts
                       (alter (append_text (description_prefix +:+ description)) j)
                       doc,
                     Return tt)
                | None => (doc, Return tt)
                end
            end
        | [] =>
            let parent_item := find_parent doc picture in
            let '(doc, new_caption_item) :=
              add_text CAPTION (strip description_prefix +:+ description)
                parent_item doc in
            (with_pictures
               (alter (append_caption {| cref := self_ref new_caption_item |}) i)
               doc,
             Return tt)
        end
      else (doc, Return tt)
  end.

(** The whole loop; it stops at the first round that raises. *)
Fixpoint splice_all (bedrock_model : PictureDescriptionBedrockApiModel)
  (work : list (nat * string)) (doc : DoclingDocument)
  : DoclingDocument * result unit :=
  match work with
  | [] => (doc, Return tt)
  | (i, description) :: rest =>
      match splice bedrock_model i description doc with
      | (doc, Return _) => splice_all bedrock_model rest doc
      | (doc, Raise e) => (doc, Raise e)
      end
  end.

(** The loop [for picture in doc.pictures] that collects the pictures whose
    image could be retrieved, as positions from [i] on, and their images. *)
Fixpoint extract_images (doc : DoclingDocument) (i : nat)
  (ps : list PictureItem) : list nat * list Image :=
  match ps with
  | [] => ([], [])
  | picture :: rest =>
      let '(pictures_to_process, images_to_process) :=
        extract_images doc (S i) rest in
      match get_image doc picture with
      | Return (Some img) =>
          (i :: pictures_to_process, img :: images_to_process)
      | Return None => (pictures_to_process, images_to_process)
      | Raise _ => (pictures_to_process, images_to_process)
      end
  end.

Definition add_bedrock_picture_descriptions (doc : DoclingDocument)
  (bedrock_options : PictureDescriptionBedrockApiOptions)
  (enable_remote_services : bool) : DoclingDocument * result unit :=
  if negb enable_remote_services then (doc, Return tt)
  else
    match init_model bedrock_options with
    | Raise _ => (doc, Return tt)
    | Return bedrock_model =>
        let '(pictures_to_process, images_to_process) :=
          extract_images doc 0 (pictures doc) in
        match images_to_process with
        | [] => (doc, Return tt)
        | _ :: _ =>
            match annotate_images bedrock_model images_to_process with
            | Raise _ => (doc, Return tt)
            | Return descriptions =>
                splice_all bedrock_model
                  (zip pictures_to_process descriptions) doc
            end
        end
    end.

(** The options [describe_image] builds: four keywords, the rest default. *)
Definition describe_image_options : PictureDescriptionBedrockApiOptions :=
  let d := default_options {| base_settings := [] |} in
  {| base := base d;
     model_id := "anthropic.claude-3-sonnet-20240229-v1:0";
     region_name := region_name d;
     profile_name := profile_name d;
     timeout := timeout d;
     max_workers := max_workers d;
     temperature := 3 # 10;
     max_tokens := 250;
     top_k := top_k d;
     prompt := "Describe this image concisely. Include main visual elements and context.";
     provenance := provenance d |}.

Definition describe_image (image_path : string) : result string :=
  let bedrock_options := describe_image_options in
  try_except
    (let* bedrock_model := init_model bedrock_options in
     let* img := Image_open image_path in
     let* results := annotate_images bedrock_model [img] in
     match results with
     | description :: _ => Return description
     | [] => Return "No description was generated"
     end)
    (fun e => Return ("Error: " +:+ str e)).

End Examples.

(** ** Vocabulary of the statements *)

(** The entry a round stores for a description. *)
Definition payload (bedrock_model : PictureDescriptionBedrockApiModel)
  (description : string) : PictureDataType :=
  PictureDescriptionData description (model_provenance bedrock_model).

(** The pointer [add_text] gives to the item it creates when the document
    holds [n] text items. *)
Definition new_text_ref (n : nat) : RefItem := {| cref := "#/texts/" +:+ pretty n |}.

(** What a round leaves of the picture [p] it is run for, in a document with
    [n] text items. *)
Definition spliced_picture (bedrock_model : PictureDescriptionBedrockApiModel)
  (description : string) (n : nat) (p : PictureItem) : PictureItem :=
  if accepted description then
    match captions p with
    | [] => append_caption (new_text_ref n)
              (append_annotation (payload bedrock_model description) p)
    | _ :: _ => append_annotation (payload bedrock_model description) p
    end
  else p.

(** The loop gets to round [j]: the rounds before it ended without raising. *)
Definition reached (ref : RefItem -> result string)
  (bedrock_model : PictureDescriptionBedrockApiModel)
  (work : list (nat * string)) (doc : DoclingDocument) (j : nat) : Prop :=
  snd (splice_all ref bedrock_model (take j work) doc) = Return tt.

(** The document as round [j] finds it. *)
Definition before (ref : RefItem -> result string)
  (bedrock_model : PictureDescriptionBedrockApiModel)
  (work : list (nat * string)) (doc : DoclingDocument) (j : nat)
  : DoclingDocument :=
  fst (splice_all ref bedrock_model (take j work) doc).

(** A text item of the document only grows: it keeps its pointer and its
    label, and its text is extended at the end. *)
Definition text_grows (t t' : TextItem) : Prop :=
  self_ref t' = self_ref t /\ label t' = label t /\
  exists s, text t' = text t +:+ s.

(** ** The worker pool of the adapter *)

(** Modelled from the spec: the dispatch of the adapter's batch annotation
    (picture_description_model.py is not among the sources), which "submits
    each [image] to the remote API concurrently", "calling a cloud API in a
    bounded worker pool".  A worker of the pool is idle, or busy with the
    call for the image at one place of the batch. *)
Inductive worker (Image : Type) :=
| Idle
| Busy (place : nat) (img : Image).
Arguments Idle {Image}.
Arguments Busy {Image} place img.

(** Modelled from the spec: the worker pool of the absent adapter.  It has
    its workers, a queue of the calls still to make, a slot for the answer
    at each place of the batch, and the record of the remote calls: the
    places whose call was started and the places whose call has come back,
    each in the order it happened. *)
Record pool (Image : Type) := {
  queue : list (nat * Image);
  workers : list (worker Image);
  started : list nat;
  completed : list nat;
  answers : list (option string)
}.
Arguments queue {Image} _.
Arguments workers {Image} _.
Arguments started {Image} _.
Arguments completed {Image} _.
Arguments answers {Image} _.

(** Modelled from the spec: what a worker of the absent adapter's pool can
    do.  Worker [w] takes the next call of the queue, or completes the call
    it is busy with. *)
Inductive event :=
| Take (w : nat)
| Complete (w : nat).

Definition is_busy {Image} (w : worker Image) : bool :=
  match w with Busy _ _ => true | Idle => false end.

(** The calls in flight: those started that have not come back. *)
Definition in_flight {Image} (s : pool Image) : nat :=
  length (started s) - length (completed s).

(** Modelled from the spec: the pool the absent adapter makes for a batch,
    with [max_workers] idle workers, every image queued under its place and
    no call made yet.  A pool needs at least one worker; there is none for a
    count that is not positive. *)
Definition submit {Image} (max_workers : Z) (images : list Image)
  : option (pool Image) :=
  if (0 <? max_workers)%Z then
    Some {| queue := imap (fun i img => (i, img)) images;
            workers := replicate (Z.to_nat max_workers) Idle;
            started := [];
            completed := [];
            answers := replicate (length images) None |}
  else None.

(** Modelled from the spec: one step of the absent adapter's pool.  Only an
    idle worker takes a call, and only from a queue that is not empty: the
    remote call for that place starts.  A busy worker completes its call:
    the call comes back and its answer is stored at the place of the
    image. *)
Definition step {Image} (call : Image -> string) (s : pool Image) (e : event)
  : option (pool Image) :=
  match e with
  | Take w =>
      match workers s !! w, queue s with
      | Some Idle, (place, img) :: rest =>
          Some {| queue := rest;
                  workers := <[w := Busy place img]> (workers s);
                  started := started s ++ [place];
                  completed := completed s;
                  answers := answers s |}
      | _, _ => None
      end
  | Complete w =>
      match workers s !! w with
      | Some (Busy place img) =>
          Some {| queue := queue s;
                  workers := <[w := Idle]> (workers s);
                  started := started s;
                  completed := completed s ++ [place];
                  answers := <[place := Some (call img)]> (answers s) |}
      | _ => None
      end
  end.

(** Modelled from the spec: a run of the absent adapter's pool.  The steps
    of the workers interleave in any order; a schedule lists them, and the
    run yields the pool after it if every step can be taken. *)
Fixpoint run {Image} (call : Image -> string) (s : pool Image)
  (schedule : list event) : option (pool Image) :=
  match schedule with
  | [] => Some s
  | e :: rest =>
      match step call s e with
      | Some s' => run call s' rest
      | None => None
      end
  end.

(** Every call that was started and has not come back is held by one busy
    worker, and the pool keeps its [n] workers. *)
Definition accounted {Image} (n : nat) (s : pool Image) : Prop :=
  length (workers s) = n
  /\ length (started s)
     = length (completed s) + length (List.filter is_busy (workers s)).

(** ** A small document and stand-ins for its surroundings *)

Module Sample.

(** An image is named by the pointer of its picture. *)
Definition Image : Type := string.

Definition figure_caption : TextItem :=
  {| text_self_ref := "#/texts/0"; text_parent := Some {| cref := "#/body" |};
     text_children := []; label := CAPTION; orig := "Figure 1";
     text := "Figure 1" |}.

(** A picture that has no caption. *)
Definition plain_picture : PictureItem :=
  {| picture_self_ref := "#/pictures/0";
     picture_parent := Some {| cref := "#/body" |};
     captions := []; annotations := [PictureMiscData "chart"] |}.

(** A picture whose caption is [figure_caption]. *)
Definition captioned_picture : PictureItem :=
  {| picture_self_ref := "#/pictures/0";
     picture_parent := Some {| cref := "#/body" |};
     captions := [{| cref := "#/texts/0" |}]; annotations := [] |}.

(** A second picture, without a caption. *)
Definition second_picture : PictureItem :=
  {| picture_self_ref := "#/pictures/1";
     picture_parent := Some {| cref := "#/body" |};
     captions := []; annotations := [] |}.

Definition document (ps : list PictureItem) : DoclingDocument :=
  {| body := {| group_self_ref := "#/body"; group_parent := None;
                group_children := [{| cref := "#/texts/0" |};
                                   {| cref := "#/pictures/0" |}] |};
     groups := [];
     texts := [figure_caption];
     pictures := ps |}.

(** The adapter [new_model] builds from [opts]. *)
Definition model : PictureDescriptionBedrockApiModel :=
  {| options := default_options {| base_settings := [] |};
     model_provenance := "amazon-bedrock" |}.

Definition opts : PictureDescriptionBedrockApiOptions :=
  default_options {| base_settings := [] |}.

Definition connect (o : PictureDescriptionBedrockApiOptions) : result unit :=
  Return tt.

Definition no_credentials (o : PictureDescriptionBedrockApiOptions)
  : result unit :=
  Raise {| str := "Unable to locate credentials" |}.

(** The constructor of the adapter, over a connection that succeeds and
    over one that fails. *)
Definition init_model := new_model connect.
Definition failing_init := new_model no_credentials.

Definition get_image (doc : DoclingDocument) (p : PictureItem)
  : result (option Image) :=
  Return (Some (self_ref p)).

Definition Image_open (path : string) : result Image := Return path.

(** An adapter that answers every batch with the given descriptions. *)
Definition answer (ds : list string) (m : PictureDescriptionBedrockApiModel)
  (images : list Image) : result (list string) :=
  Return ds.

Definition throttled (m : PictureDescriptionBedrockApiModel)
  (images : list Image) : result (list string) :=
  Raise {| str := "ThrottlingException" |}.

(** [.ref] read as the pointer of the reference. *)
Definition ref (r : RefItem) : result string := Return (cref r).

(** [.ref] refused by the host. *)
Definition no_ref (r : RefItem) : result string :=
  Raise {| str := "'RefItem' object has no attribute 'ref'" |}.

(** The remote call of the pool examples. *)
Definition call (img : Image) : string := "A picture of " +:+ img.

End Sample.

(** ** Further vocabulary *)

(** The text items of the document stand under the pointers of their
    places, as the host's [add_text] numbers them. *)
Definition well_indexed (doc : DoclingDocument) : Prop :=
  forall j t, texts doc !! j = Some t -> self_ref t = cref (new_text_ref j).

(** [n.children] of a node of the document. *)
Definition children_of (doc : DoclingDocument) (n : node) : list RefItem :=
  match n with
  | text_node j => from_option text_children [] (texts doc !! j)
  | group_node j => from_option group_children [] (groups doc !! j)
  | body_node => group_children (body doc)
  end.

(** [n] names a node that the document has. *)
Definition node_of (doc : DoclingDocument) (n : node) : Prop :=
  match n with
  | text_node j => is_Some (texts doc !! j)
  | group_node j => is_Some (groups doc !! j)
  | body_node => True
  end.

(** The three files [process_document] writes for a conversion result. *)
Definition output_paths (joinpath : string -> string -> string)
  (output_dir stem : string) : list string :=
  [joinpath output_dir (stem +:+ ".md");
   joinpath output_dir (stem +:+ ".json");
   joinpath output_dir (stem +:+ ".yaml")].

(** ** The scripts around the two functions *)

(** How a script ends: it runs to its end, it leaves through [sys.exit], or
    an exception escapes it. *)
Inductive outcome :=
| Finished
| SystemExit (code : Z)
| Raised (e : Exception).

(** [s * n] on strings. *)
Fixpoint string_repeat (s : string) (n : nat) : string :=
  match n with
  | 0 => ""
  | S n => s +:+ string_repeat s n
  end.

Definition newline : string := String "010" "".

(** What [sys.argv[0]] raises on an empty argument list. *)
Definition IndexError : Exception := {| str := "list index out of range" |}.

(** What the host's converter hands back for one input, as far as
    [process_document] reads it: [status], [input.file.name],
    [input.file.stem] and [document]. *)
Record ConversionResult := {
  status : string;
  file_name : string;
  file_stem : string;
  document : DoclingDocument
}.

(** The options [process_document] builds: five keywords, the rest
    default. *)
Definition process_document_options : PictureDescriptionBedrockApiOptions :=
  let d := default_options {| base_settings := [] |} in
  {| base := base d;
     model_id := "anthropic.claude-3-sonnet-20240229-v1:0";
     region_name := region_name d;
     profile_name := profile_name d;
     timeout := timeout d;
     max_workers := 3;
     temperature := 3 # 10;
     max_tokens := 250;
     top_k := top_k d;
     prompt := "Describe this image concisely. Include main visual elements and context.";
     provenance := provenance d |}.

Module image_description.
Section Script.

Context {Image : Type}.
Variable init_model :
  PictureDescriptionBedrockApiOptions -> result PictureDescriptionBedrockApiModel.
Variable annotate_images :
  PictureDescriptionBedrockApiModel -> list Image -> result (list string).
Variable Image_open : string -> result Image.

(** [Path(s)], as the text it prints as. *)
Variable Path : string -> string.

(** [path.exists()]. *)
Variable exists_ : string -> bool.

(** [main] of image_description.py over [sys.argv]; the first component
    lists the arguments of its [print] calls in order. *)
Definition main (argv : list string) : list string * outcome :=
  match argv with
  | [] => ([], Raised IndexError)
  | [program] =>
      (["Usage: " +:+ program +:+ " /path/to/image.[jpg|png|etc]"],
       SystemExit 1)
  | program :: argument :: _ =>
      let image_path := Path argument in
      if negb (exists_ image_path) then
        (["Error: Image file not found: " +:+ image_path], SystemExit 1)
      else
        match describe_image init_model annotate_images Image_open image_path with
        | Raise e => ([], Raised e)
        | Return description =>
            ([newline +:+ string_repeat "=" 80;
              "IMAGE DESCRIPTION FROM AWS BEDROCK";
              string_repeat "=" 80;
              description;
              string_repeat "=" 80 +:+ newline],
             Finished)
        end
  end.

End Script.
End image_description.

Module bedrock_image_description.
Section Script.

Context {Image : Type}.
Variable init_model :
  PictureDescriptionBedrockApiOptions -> result PictureDescriptionBedrockApiModel.
Variable annotate_images :
  PictureDescriptionBedrockApiModel -> list Image -> result (list string).
Variable get_image : DoclingDocument -> PictureItem -> result (option Image).
Variable ref : RefItem -> result string.

(** Building the converter, [convert_all([input_path])] and taking the
    first result: that result, or the exception raised on the way. *)
Variable convert : string -> result ConversionResult.

(** [Path(s)], as the text it prints as, [path.exists()], and
    [directory / name]. *)
Variable Path : string -> string.
Variable exists_ : string -> bool.
Variable joinpath : string -> string -> string.

(** [output_dir.mkdir(parents=True, exist_ok=True)]: the exception it
    raises, if any. *)
Variable mkdir : string -> option Exception.

(** [path.open("w")]: the exception it raises, if any. *)
Variable open_w : string -> option Exception.

(** The serialisers of the host: [doc.export_to_markdown()] and
    [doc.model_dump_json(indent=2)] yield a text or raise;
    [yaml.safe_dump(doc.model_dump(mode="json"), fp, ...)] writes to the
    open file as it goes, so it yields what it wrote and the exception that
    stopped it, if any. *)
Variable export_to_markdown : DoclingDocument -> result string.
Variable model_dump_json : DoclingDocument -> result string.
Variable yaml_dump : DoclingDocument -> string * option Exception.

(** [with path.open("w") as fp: fp.write(content)], on the contents of the
    files by path.  Opening truncates the file; the content is computed
    after that. *)
Definition write_text (path : string) (content : result string)
  (fs : gmap string string) : gmap string string * result unit :=
  match open_w path with
  | Some e => (fs, Raise e)
  | None =>
      let fs := <[path := ""]> fs in
      match content with
      | Raise e => (fs, Raise e)
      | Return s => (<[path := s]> fs, Return tt)
      end
  end.

(** [with path.open("w") as fp: yaml.safe_dump(..., fp, ...)]. *)
Definition write_yaml (path : string) (dumped : string * option Exception)
  (fs : gmap string string) : gmap string string * result unit :=
  match open_w path with
  | Some e => (fs, Raise e)
  | None =>
      (<[path := fst dumped]> (<[path := ""]> fs),
       match snd dumped with Some e => Raise e | None => Return tt end)
  end.

(** The end of [process_document]: the markdown, JSON and YAML files, in
    that order; a step that raises ends it. *)
Definition save_outputs (doc : DoclingDocument) (stem output_dir : string)
  (fs : gmap string string) : gmap string string * result unit :=
  let md_path := joinpath output_dir (stem +:+ ".md") in
  match write_text md_path (export_to_markdown doc) fs with
  | (fs, Raise e) => (fs, Raise e)
  | (fs, Return _) =>
      let json_path := joinpath output_dir (stem +:+ ".json") in
      match write_text json_path (model_dump_json doc) fs with
      | (fs, Raise e) => (fs, Raise e)
      | (fs, Return _) =>
          let yaml_path := joinpath output_dir (stem +:+ ".yaml") in
          write_yaml yaml_path (yaml_dump doc) fs
      end
  end.

(** [process_document]: the files as it leaves them, and how it ends.
    [load_dotenv()] only feeds the environment the adapter is built in. *)
Definition process_document (input_path output_dir : string)
  (fs : gmap string string) : gmap string string * result unit :=
  let bedrock_options := process_document_options in
  match convert input_path with
  | Raise e => (fs, Raise e)
  | Return conv_result =>
      if negb (String.eqb (status conv_result) "success") then (fs, Return tt)
      else
        let doc := document conv_result in
        let '(doc, described) :=
          match pictures doc with
          | _ :: _ =>
              add_bedrock_picture_descriptions init_model annotate_images
                get_image ref doc bedrock_options true
          | [] => (doc, Return tt)
          end in
        match described with
        | Raise e => (fs, Raise e)
        | Return _ => save_outputs doc (file_stem conv_result) output_dir fs
        end
  end.

(** [main] of bedrock_image_description.py over [sys.argv]: the arguments
    of its [print] calls, the files as it leaves them, and how it ends. *)
Definition main (argv : list string) (fs : gmap string string)
  : list string * gmap string string * outcome :=
  match argv with
  | [] => ([], fs, Raised IndexError)
  | [program] =>
      (["Usage: " +:+ program +:+ " /path/to/document.[pdf|docx|pptx]"],
       fs, SystemExit 1)
  | program :: argument :: _ =>
      let input_path := Path argument in
      if negb (exists_ input_path) then
        (["Error: File not found: " +:+ input_path], fs, SystemExit 1)
      else
        let output_dir := Path "./output" in
        match mkdir output_dir with
        | Some e => ([], fs, Raised e)
        | None =>
            match process_document input_path output_dir fs with
            | (fs, Return _) => ([], fs, Finished)
            | (fs, Raise e) => ([], fs, Raised e)
            end
        end
  end.

End Script.
End bedrock_image_description.

(** ** Stand-ins for the surroundings of the scripts *)

Module Desk.

(** Only the first picture of the document yields an image. *)
Definition first_image_only (doc : DoclingDocument) (p : PictureItem)
  : result (option Sample.Image) :=
  if String.eqb (self_ref p) "#/pictures/0" then Return (Some (self_ref p))
  else Return None.

(** A conversion of report.pdf into the sample document with one picture. *)
Definition converted : ConversionResult :=
  {| status := "success"; file_name := "report.pdf"; file_stem := "report";
     document := Sample.document [Sample.plain_picture] |}.

Definition convert (input_path : string) : result ConversionResult :=
  Return converted.

(** The converter hands back a generator, which the script subscripts. *)
Definition not_subscriptable (input_path : string) : result ConversionResult :=
  Raise {| str := "'generator' object is not subscriptable" |}.

Definition Path (s : string) : string := s.

Definition exists_ (path : string) : bool := String.eqb path "report.pdf".

Definition joinpath (directory name : string) : string :=
  directory +:+ "/" +:+ name.

Definition mkdir (path : string) : option Exception := None.

Definition open_w (path : string) : option Exception := None.

Definition export_to_markdown (doc : DoclingDocument) : result string :=
  Return (String.concat newline (text <$> texts doc)).

Definition broken_markdown (doc : DoclingDocument) : result string :=
  Raise {| str := "cannot serialise" |}.

Definition model_dump_json (doc : DoclingDocument) : result string :=
  Return ("{texts: " +:+ pretty (length (texts doc)) +:+ "}").

Definition yaml_dump (doc : DoclingDocument) : string * option Exception :=
  ("texts: " +:+ pretty (length (texts doc)), None).

End Desk.

(** * Proofs *)

(** ** Strings *)

Lemma append_assoc (s1 s2 s3 : string) :
  (s1 +:+ s2) +:+ s3 = s1 +:+ (s2 +:+ s3).
Proof.
  induction s1 as [|c s1 IH]; [reflexivity|].
  change (String c ((s1 +:+ s2) +:+ s3) = String c (s1 +:+ (s2 +:+ s3))).
  now rewrite IH.
Qed.

Lemma append_empty_r (s : string) : s +:+ "" = s.
Proof.
  induction s as [|c s IH]; [reflexivity|].
  change (String c (s +:+ "") = String c s). now rewrite IH.
Qed.

Lemma prefix_refl (s : string) : String.prefix s s = true.
Proof.
  induction s as [|c s IH]; simpl; [reflexivity|].
  destruct (ascii_dec c c); [exact IH | congruence].
Qed.

Lemma prefix_append (s t : string) : String.prefix s (s +:+ t) = true.
Proof.
  induction s as [|c s IH]; [now destruct t|].
  change (String.prefix (String c s) (String c (s +:+ t)) = true). simpl.
  destruct (ascii_dec c c); [exact IH | congruence].
Qed.

Lemma strip_description_prefix : strip description_prefix = "Image Description:".
Proof. reflexivity. Qed.

(** ** Lists updated in place *)

Lemma alter_at {A} (f : A -> A) (l : list A) (i : nat) (x : A) :
  l !! i = Some x -> alter f i l = <[i := f x]> l.
Proof.
  revert i; induction l as [|y l IH]; intros [|i] H; simpl in *; try discriminate.
  - now inversion H.
  - f_equal. now apply IH.
Qed.

(** ** One round *)

Section Rounds.

Variable ref : RefItem -> result string.
Variable m : PictureDescriptionBedrockApiModel.

Lemma pictures_append_child n r doc :
  pictures (append_child n r doc) = pictures doc.
Proof. now destruct n. Qed.

Lemma pictures_add_text lbl txt prt doc :
  pictures (fst (add_text lbl txt prt doc)) = pictures doc.
Proof. unfold add_text; simpl. now rewrite pictures_append_child. Qed.

Lemma self_ref_add_text lbl txt prt doc :
  {| cref := self_ref (snd (add_text lbl txt prt doc)) |}
  = new_text_ref (length (texts doc)).
Proof. reflexivity. Qed.

(** A round touches the picture it is run for, and only that one. *)
Lemma splice_pictures i d doc p :
  pictures doc !! i = Some p ->
  pictures (fst (splice ref m i d doc))
  = <[i := spliced_picture m d (length (texts doc)) p]> (pictures doc).
Proof.
  intros Hp. unfold splice, spliced_picture. rewrite Hp.
  destruct (accepted d); simpl.
  2: { symmetry. now apply list_insert_id. }
  destruct (captions p) as [|first rest].
  - simpl. rewrite pictures_append_child. simpl.
    rewrite list_alter_alter_eq, (alter_at _ _ _ _ Hp). reflexivity.
  - destruct (ref first) as [r|e]; simpl.
    + destruct (find_ref r _) as [[j t]|]; simpl; now apply alter_at.
    + now apply alter_at.
Qed.

End Rounds.

Lemma text_grows_refl t : text_grows t t.
Proof.
  repeat split. exists "". now rewrite append_empty_r.
Qed.

Lemma text_grows_trans t1 t2 t3 :
  text_grows t1 t2 -> text_grows t2 t3 -> text_grows t1 t3.
Proof.
  intros (Hr & Hl & s & Hs) (Hr' & Hl' & s' & Hs').
  repeat split; [congruence | congruence |].
  exists (s +:+ s'). now rewrite Hs', Hs, append_assoc.
Qed.

Lemma text_grows_append_text s t : text_grows t (append_text s t).
Proof. repeat split. now exists s. Qed.

Lemma text_grows_append_child r t : text_grows t (text_append_child r t).
Proof. repeat split. exists "". simpl. now rewrite append_empty_r. Qed.

Section RoundTexts.

Variable ref : RefItem -> result string.
Variable m : PictureDescriptionBedrockApiModel.

Lemma alter_grows (f : TextItem -> TextItem) (ts : list TextItem) i j t :
  (forall x, text_grows x (f x)) ->
  ts !! j = Some t ->
  exists t', alter f i ts !! j = Some t' /\ text_grows t t'.
Proof.
  intros Hf Ht. destruct (decide (i = j)) as [->|Hne].
  - exists (f t). rewrite list_lookup_alter_eq, Ht. split; [reflexivity | apply Hf].
  - exists t. rewrite list_lookup_alter_ne by assumption.
    split; [assumption | apply text_grows_refl].
Qed.

Lemma append_child_grows n r doc j t :
  texts doc !! j = Some t ->
  exists t', texts (append_child n r doc) !! j = Some t' /\ text_grows t t'.
Proof.
  intros Ht. destruct n as [i|i|]; simpl.
  - apply alter_grows; [apply text_grows_append_child | assumption].
  - exists t. split; [assumption | apply text_grows_refl].
  - exists t. split; [assumption | apply text_grows_refl].
Qed.

Lemma add_text_grows lbl txt prt doc j t :
  texts doc !! j = Some t ->
  exists t', texts (fst (add_text lbl txt prt doc)) !! j = Some t' /\ text_grows t t'.
Proof.
  intros Ht. unfold add_text; simpl. apply append_child_grows. simpl.
  now apply lookup_app_l_Some.
Qed.

(** A round keeps every text item of the document, pointer and label, and
    at most extends its text. *)
Lemma splice_texts_grow i d doc j t :
  texts doc !! j = Some t ->
  exists t', texts (fst (splice ref m i d doc)) !! j = Some t' /\ text_grows t t'.
Proof.
  intros Ht. unfold splice.
  destruct (pictures doc !! i) as [p|]; simpl.
  2: { exists t. split; [assumption | apply text_grows_refl]. }
  destruct (accepted d); simpl.
  2: { exists t. split; [assumption | apply text_grows_refl]. }
  destruct (captions p) as [|first rest].
  - simpl. apply append_child_grows. simpl. now apply lookup_app_l_Some.
  - destruct (ref first) as [r|e]; simpl.
    + destruct (find_ref r _) as [[k t0]|]; simpl.
      * apply alter_grows; [intros x; apply text_grows_append_text | assumption].
      * exists t. split; [assumption | apply text_grows_refl].
    + exists t. split; [assumption | apply text_grows_refl].
Qed.

End RoundTexts.

Section RoundCaptions.

Variable ref : RefItem -> result string.
Variable m : PictureDescriptionBedrockApiModel.

Lemma append_child_new_text n r doc ts t :
  texts doc = (ts ++ [t])%list ->
  exists t', texts (append_child n r doc) !! length ts = Some t'
             /\ self_ref t' = self_ref t /\ label t' = label t
             /\ text t' = text t.
Proof.
  intros Hts.
  assert (Hlast : texts doc !! length ts = Some t).
  { rewrite Hts, lookup_app_r by lia. now rewrite Nat.sub_diag. }
  destruct n as [j|j|]; simpl; [| now exists t | now exists t].
  rewrite list_lookup_alter. destruct (decide (j = length ts)) as [->|Hne].
  - rewrite Hlast. simpl. now eexists.
  - now exists t.
Qed.

Lemma length_texts_append_child n r doc :
  length (texts (append_child n r doc)) = length (texts doc).
Proof. destruct n; simpl; try reflexivity. apply length_alter. Qed.

Lemma add_text_new lbl txt prt doc :
  exists t,
    texts (fst (add_text lbl txt prt doc)) !! length (texts doc) = Some t
    /\ self_ref t = cref (new_text_ref (length (texts doc)))
    /\ label t = lbl /\ text t = txt.
Proof.
  unfold add_text. cbv zeta.
  match goal with
  | |- context [append_child ?n ?r ?doc0] =>
      match doc0 with
      | with_texts (fun ts => (ts ++ [?item])%list) _ =>
          destruct (append_child_new_text n r doc0 (texts doc) item eq_refl)
            as (t' & Ht' & Hr & Hl & Htx)
      end
  end.
  exists t'. split; [exact Ht'|]. rewrite Hr, Hl, Htx. now repeat split.
Qed.

(** For a picture without a caption the round creates the caption item:
    it is the last text item of the document, under the pointer the
    picture's new reference holds. *)
Lemma splice_new_caption i d doc p :
  pictures doc !! i = Some p -> accepted d = true -> captions p = [] ->
  exists t,
    texts (fst (splice ref m i d doc)) !! length (texts doc) = Some t
    /\ self_ref t = cref (new_text_ref (length (texts doc)))
    /\ label t = CAPTION
    /\ text t = "Image Description:" +:+ d.
Proof.
  intros Hp Ha Hc. unfold splice. rewrite Hp, Ha, Hc. cbv beta iota zeta.
  match goal with
  | |- context [add_text ?l ?x ?n ?doc0] =>
      pose proof (add_text_new l x n doc0) as Hnew;
      destruct (add_text l x n doc0) as [doc2 item]
  end.
  exact Hnew.
Qed.

(** For a picture that has a caption, the round appends the description
    to the text of the item the first reference names, when reading the
    reference yields a pointer and a text item carries it. *)
Lemma splice_old_caption i d doc p first rest r j t0 :
  pictures doc !! i = Some p -> accepted d = true ->
  captions p = first :: rest -> ref first = Return r ->
  find_ref r (texts doc) = Some (j, t0) ->
  splice ref m i d doc
  = (with_texts (alter (append_text (description_prefix +:+ d)) j)
       (with_pictures (alter (append_annotation (payload m d)) i) doc),
     Return tt).
Proof.
  intros Hp Ha Hc Hr Hf. unfold splice. rewrite Hp, Ha, Hc, Hr. simpl.
  now rewrite Hf.
Qed.

End RoundCaptions.

(** ** The loop *)

Section Loop.

Variable ref : RefItem -> result string.
Variable m : PictureDescriptionBedrockApiModel.

Lemma splice_lookup_other i d doc k :
  i <> k -> pictures (fst (splice ref m i d doc)) !! k = pictures doc !! k.
Proof.
  intros Hne. destruct (pictures doc !! i) as [p|] eqn:Hp.
  - rewrite (splice_pictures _ _ _ _ _ _ Hp). now apply list_lookup_insert_ne.
  - unfold splice. now rewrite Hp.
Qed.

Lemma splice_lookup_same i d doc p :
  pictures doc !! i = Some p ->
  pictures (fst (splice ref m i d doc)) !! i
  = Some (spliced_picture m d (length (texts doc)) p).
Proof.
  intros Hp. rewrite (splice_pictures _ _ _ _ _ _ Hp).
  apply list_lookup_insert_eq. now apply lookup_lt_Some in Hp.
Qed.

Lemma splice_all_cons i d rest doc :
  splice_all ref m ((i, d) :: rest) doc
  = match snd (splice ref m i d doc) with
    | Return _ => splice_all ref m rest (fst (splice ref m i d doc))
    | Raise e => (fst (splice ref m i d doc), Raise e)
    end.
Proof. simpl. now destruct (splice ref m i d doc) as [doc1 [u|e]]. Qed.

(** Pictures the work list does not name are left as they are. *)
Lemma splice_all_untouched work doc k :
  k ∉ work.*1 ->
  pictures (fst (splice_all ref m work doc)) !! k = pictures doc !! k.
Proof.
  revert doc. induction work as [|[i d] rest IH]; intros doc Hk; [reflexivity|].
  rewrite fmap_cons, not_elem_of_cons in Hk. destruct Hk as [Hne Hk].
  rewrite splice_all_cons.
  destruct (snd (splice ref m i d doc)) as [u|e]; simpl.
  - rewrite IH by assumption. now apply splice_lookup_other.
  - now apply splice_lookup_other.
Qed.

(** The picture of a round the loop gets to ends as that round left it,
    provided no other round is for the same picture. *)
Lemma splice_all_touched work doc j k d p :
  NoDup work.*1 ->
  work !! j = Some (k, d) ->
  reached ref m work doc j ->
  pictures doc !! k = Some p ->
  pictures (fst (splice_all ref m work doc)) !! k
  = Some (spliced_picture m d (length (texts (before ref m work doc j))) p).
Proof.
  unfold reached, before.
  revert doc j. induction work as [|[i0 d0] rest IH]; intros doc j Hnd Hj Hr Hp.
  { discriminate. }
  rewrite fmap_cons in Hnd. apply NoDup_cons in Hnd as [Hnotin Hnd].
  destruct j as [|j]; simpl in Hj.
  - injection Hj as -> ->. rewrite splice_all_cons. simpl take. simpl splice_all.
    simpl fst.
    destruct (snd (splice ref m k d doc)) as [u|e]; simpl.
    + rewrite splice_all_untouched by assumption. now apply splice_lookup_same.
    + now apply splice_lookup_same.
  - assert (Hne : i0 <> k).
    { intros ->. apply Hnotin. apply list_elem_of_fmap.
      exists (k, d). split; [reflexivity|]. now apply list_elem_of_lookup_2 in Hj. }
    change (take (S j) ((i0, d0) :: rest)) with ((i0, d0) :: take j rest) in *.
    rewrite splice_all_cons in Hr |- *. rewrite (splice_all_cons i0 d0 (take j rest)).
    destruct (snd (splice ref m i0 d0 doc)) as [u|e]; [|discriminate].
    apply IH; try assumption.
    now rewrite splice_lookup_other.
Qed.

(** The text items of the document only grow along the loop. *)
Lemma splice_all_texts_grow work doc j t :
  texts doc !! j = Some t ->
  exists t', texts (fst (splice_all ref m work doc)) !! j = Some t'
             /\ text_grows t t'.
Proof.
  revert doc t. induction work as [|[i d] rest IH]; intros doc t Ht.
  { exists t. split; [assumption | apply text_grows_refl]. }
  destruct (splice_texts_grow ref m i d doc j t Ht) as (t1 & Ht1 & Hg1).
  rewrite splice_all_cons.
  destruct (snd (splice ref m i d doc)) as [u|e]; simpl.
  - destruct (IH _ _ Ht1) as (t2 & Ht2 & Hg2).
    exists t2. split; [assumption | now apply text_grows_trans with t1].
  - now exists t1.
Qed.

(** From a round the loop gets to, the run goes on from what that round
    left. *)
Lemma splice_all_after work doc j k d :
  work !! j = Some (k, d) ->
  reached ref m work doc j ->
  exists rest',
    fst (splice_all ref m work doc)
    = fst (splice_all ref m rest'
             (fst (splice ref m k d (before ref m work doc j)))).
Proof.
  unfold reached, before.
  revert doc j. induction work as [|[i0 d0] rest IH]; intros doc j Hj Hr.
  { discriminate. }
  destruct j as [|j]; simpl in Hj.
  - injection Hj as -> ->. rewrite splice_all_cons. simpl take. simpl splice_all.
    simpl fst.
    destruct (snd (splice ref m k d doc)) as [u|e].
    + now exists rest.
    + now exists [].
  - change (take (S j) ((i0, d0) :: rest)) with ((i0, d0) :: take j rest) in *.
    rewrite splice_all_cons in Hr |- *. rewrite (splice_all_cons i0 d0 (take j rest)).
    destruct (snd (splice ref m i0 d0 doc)) as [u|e]; [|discriminate].
    now apply IH.
Qed.

End Loop.

Section Answers.

Variable ref : RefItem -> result string.
Variable m : PictureDescriptionBedrockApiModel.

(** When the host answers every [.ref] with a pointer, no round raises and
    the loop gets to every round. *)
Hypothesis ref_answers : forall r, exists s, ref r = Return s.

Lemma splice_returns i d doc : snd (splice ref m i d doc) = Return tt.
Proof.
  unfold splice. destruct (pictures doc !! i) as [p|]; [|reflexivity].
  destruct (accepted d); [|reflexivity].
  destruct (captions p) as [|first rest]; [reflexivity|].
  destruct (ref_answers first) as [s ->].
  now destruct (find_ref s _) as [[j t]|].
Qed.

Lemma splice_all_returns work doc : snd (splice_all ref m work doc) = Return tt.
Proof.
  revert doc. induction work as [|[i d] rest IH]; intros doc; [reflexivity|].
  rewrite splice_all_cons, splice_returns. apply IH.
Qed.

Lemma reached_when_ref_answers work doc j : reached ref m work doc j.
Proof. apply splice_all_returns. Qed.

End Answers.

Section LoopFrame.

Variable ref : RefItem -> result string.
Variable m : PictureDescriptionBedrockApiModel.

(** Every picture ends either as it was or as the round run for it left
    it. *)
Lemma splice_all_cases work doc k p :
  NoDup work.*1 ->
  pictures doc !! k = Some p ->
  exists p', pictures (fst (splice_all ref m work doc)) !! k = Some p'
    /\ (p' = p \/
        exists j d n, work !! j = Some (k, d) /\ p' = spliced_picture m d n p).
Proof.
  revert doc. induction work as [|[i d] rest IH]; intros doc Hnd Hp.
  { exists p. split; [assumption | now left]. }
  rewrite fmap_cons in Hnd. apply NoDup_cons in Hnd as [Hnotin Hnd].
  rewrite splice_all_cons.
  destruct (decide (i = k)) as [->|Hne].
  - exists (spliced_picture m d (length (texts doc)) p). split.
    + destruct (snd (splice ref m k d doc)) as [u|e]; simpl.
      * rewrite splice_all_untouched by assumption. now apply splice_lookup_same.
      * now apply splice_lookup_same.
    + right. now exists 0, d, (length (texts doc)).
  - destruct (snd (splice ref m i d doc)) as [u|e]; simpl.
    + destruct (IH (fst (splice ref m i d doc)) Hnd) as (p' & Hp' & Hcase).
      { now rewrite splice_lookup_other. }
      exists p'. split; [assumption|].
      destruct Hcase as [->|(j & d' & n & Hj & ->)]; [now left | right].
      now exists (S j), d', n.
    + exists p. split; [now rewrite splice_lookup_other | now left].
Qed.

Lemma zip_fst_elem_of {A B} (l : list A) (k : list B) x :
  x ∈ (zip l k).*1 -> x ∈ l.
Proof.
  revert k. induction l as [|a l IH]; intros [|b k] Hx; simpl in *;
    try (now apply elem_of_nil in Hx).
  apply elem_of_cons in Hx as [->|Hx]; [left | right; eauto].
Qed.

Lemma zip_fst_NoDup {A B} (l : list A) (k : list B) :
  NoDup l -> NoDup (zip l k).*1.
Proof.
  revert k. induction l as [|a l IH]; intros [|b k] Hnd; simpl;
    try apply NoDup_nil_2.
  apply NoDup_cons in Hnd as [Hnotin Hnd]. apply NoDup_cons. split; [|now apply IH].
  intros Hin. apply Hnotin. now apply zip_fst_elem_of in Hin.
Qed.

End LoopFrame.

(** ** Collecting the pictures to process *)

Section Extract.

Context {Image : Type}.
Variable get_image : DoclingDocument -> PictureItem -> result (option Image).

(** The positions collected are those of pictures whose image was
    retrieved, each with its image at the same place of the batch, in the
    order of the document and without repetition. *)
Lemma extract_images_spec doc i l pics imgs :
  extract_images get_image doc i l = (pics, imgs) ->
  length pics = length imgs
  /\ NoDup pics
  /\ forall j k, pics !! j = Some k ->
       i <= k /\ exists p img, l !! (k - i) = Some p
                   /\ get_image doc p = Return (Some img)
                   /\ imgs !! j = Some img.
Proof.
  revert i pics imgs. induction l as [|p l IH]; intros i pics imgs H; simpl in H.
  { injection H as <- <-. repeat split; [apply NoDup_nil_2 | discriminate | discriminate]. }
  destruct (extract_images get_image doc (S i) l) as [pics' imgs'] eqn:E.
  destruct (IH _ _ _ E) as (Hlen & Hnd & Hall).
  assert (Hshift : forall j k, pics' !! j = Some k ->
            i <= k /\ exists p0 img, (p :: l) !! (k - i) = Some p0
                        /\ get_image doc p0 = Return (Some img)
                        /\ imgs' !! j = Some img).
  { intros j k Hj. destruct (Hall _ _ Hj) as (Hle & p0 & img & Hl & Hg & Hi).
    split; [lia|]. exists p0, img. repeat split; try assumption.
    replace (k - i) with (S (k - S i)) by lia. exact Hl. }
  destruct (get_image doc p) as [[img|]|e] eqn:G; injection H as <- <-;
    [| now split; [|split] | now split; [|split]].
  split; [simpl; now rewrite Hlen|]. split.
  - apply NoDup_cons. split; [|assumption].
    intros Hin. apply list_elem_of_lookup in Hin as [j Hj].
    apply Hall in Hj as [Hle _]. lia.
  - intros [|j] k Hj; simpl in Hj.
    + injection Hj as <-. split; [lia|]. exists p, img.
      rewrite Nat.sub_diag. now repeat split.
    + now apply Hshift.
Qed.

(** When no picture yields an image, nothing is collected. *)
Lemma extract_images_none doc i l :
  Forall (fun p => forall img, get_image doc p <> Return (Some img)) l ->
  extract_images get_image doc i l = ([], []).
Proof.
  revert i. induction l as [|p l IH]; intros i H; [reflexivity|].
  apply Forall_cons in H as [Hp Hl]. simpl. rewrite (IH _ Hl).
  destruct (get_image doc p) as [[img|]|e]; try reflexivity.
  now destruct (Hp img).
Qed.

End Extract.

(** ** The whole function *)

(** The adapter the modelled constructor builds reports the provenance tag
    of its options. *)
Lemma new_model_provenance connect opts m :
  new_model connect opts = Return m -> model_provenance m = provenance opts.
Proof.
  unfold new_model, bind. destruct (connect opts); [|discriminate].
  now intros [= <-].
Qed.

Section Function.

Context {Image : Type}.
Variable init_model :
  PictureDescriptionBedrockApiOptions -> result PictureDescriptionBedrockApiModel.
Variable annotate_images :
  PictureDescriptionBedrockApiModel -> list Image -> result (list string).
Variable get_image : DoclingDocument -> PictureItem -> result (option Image).
Variable ref : RefItem -> result string.

(** Past its early exits the function is the loop over the zipped lists. *)
Lemma add_run doc opts m ps imgs ds :
  init_model opts = Return m ->
  extract_images get_image doc 0 (pictures doc) = (ps, imgs) ->
  annotate_images m imgs = Return ds ->
  add_bedrock_picture_descriptions init_model
      annotate_images get_image ref doc opts true = splice_all ref m (zip ps ds) doc.
Proof.
  intros Hm He Ha. unfold add_bedrock_picture_descriptions. simpl.
  rewrite Hm, He.
  destruct (extract_images_spec _ _ _ _ _ _ He) as (Hlen & _).
  destruct imgs as [|img imgs].
  - destruct ps; [reflexivity | discriminate].
  - now rewrite Ha.
Qed.

(** Whatever the run, every picture ends as it was or as the round run
    for it left it. *)
Lemma add_cases doc opts enable k p :
  pictures doc !! k = Some p ->
  exists p', pictures (fst (add_bedrock_picture_descriptions init_model
      annotate_images get_image ref doc opts enable)) !! k = Some p'
    /\ (p' = p \/
        exists m ps imgs ds j d n,
          init_model opts = Return m
          /\ extract_images get_image doc 0 (pictures doc) = (ps, imgs)
          /\ annotate_images m imgs = Return ds
          /\ ps !! j = Some k /\ ds !! j = Some d
          /\ p' = spliced_picture m d n p).
Proof.
  intros Hp.
  destruct enable; [|exists p; split; [assumption | now left]].
  destruct (init_model opts) as [m|e] eqn:Hm.
  2: { exists p. unfold add_bedrock_picture_descriptions. rewrite Hm.
       split; [assumption | now left]. }
  destruct (extract_images get_image doc 0 (pictures doc)) as [ps imgs] eqn:He.
  destruct (annotate_images m imgs) as [ds|e] eqn:Ha.
  - rewrite (add_run _ _ _ _ _ _ Hm He Ha).
    destruct (extract_images_spec _ _ _ _ _ _ He) as (_ & Hnd & _).
    destruct (splice_all_cases ref m (zip ps ds) doc k p
                (zip_fst_NoDup _ _ Hnd) Hp) as (p' & Hp' & Hcase).
    exists p'. split; [assumption|].
    destruct Hcase as [->|(j & d & n & Hj & ->)]; [now left | right].
    apply lookup_zip_Some in Hj as [Hj1 Hj2].
    now exists m, ps, imgs, ds, j, d, n.
  - exists p. unfold add_bedrock_picture_descriptions. simpl. rewrite Hm, He.
    destruct imgs; [|rewrite Ha]; (split; [assumption | now left]).
Qed.

Lemma annotations_spliced m d n p :
  annotations (spliced_picture m d n p)
  = (annotations p ++ if accepted d then [payload m d] else [])%list.
Proof.
  unfold spliced_picture. destruct (accepted d); [|now rewrite app_nil_r].
  now destruct (captions p).
Qed.

Lemma captions_spliced m d n p :
  captions (spliced_picture m d n p)
  = match captions p with
    | [] => if accepted d then [new_text_ref n] else []
    | c => c
    end.
Proof.
  unfold spliced_picture. destruct (accepted d); [|now destruct (captions p)].
  destruct (captions p) eqn:Hc; simpl; now rewrite Hc.
Qed.

End Function.

Section Positions.

Variable ref : RefItem -> result string.
Variable m : PictureDescriptionBedrockApiModel.

(** A picture is as the document had it until the round run for it. *)
Lemma before_untouched work doc j k d :
  NoDup work.*1 -> work !! j = Some (k, d) ->
  pictures (before ref m work doc j) !! k = pictures doc !! k.
Proof.
  intros Hnd Hj. unfold before. apply splice_all_untouched.
  rewrite fmap_take. intros Hin.
  apply list_elem_of_lookup in Hin as [i Hi].
  apply lookup_take_Some in Hi as [Hi Hlt].
  assert (Hjk : work.*1 !! j = Some k) by now rewrite list_lookup_fmap, Hj.
  pose proof (NoDup_lookup _ _ _ _ Hnd Hi Hjk). lia.
Qed.

(** Two rounds for the same picture are the same round. *)
Lemma same_round (work : list (nat * string)) j j' k d d' :
  NoDup work.*1 -> work !! j = Some (k, d) -> work !! j' = Some (k, d') ->
  d = d'.
Proof.
  intros Hnd Hj Hj'.
  assert (H1 : work.*1 !! j = Some k) by now rewrite list_lookup_fmap, Hj.
  assert (H2 : work.*1 !! j' = Some k) by now rewrite list_lookup_fmap, Hj'.
  pose proof (NoDup_lookup _ _ _ _ Hnd H1 H2) as ->. congruence.
Qed.

End Positions.

(** * The claims about [add_bedrock_picture_descriptions] *)

Section Claims.

Context {Image : Type}.
Variable init_model :
  PictureDescriptionBedrockApiOptions -> result PictureDescriptionBedrockApiModel.
Variable annotate_images :
  PictureDescriptionBedrockApiModel -> list Image -> result (list string).
Variable get_image : DoclingDocument -> PictureItem -> result (option Image).
Variable ref : RefItem -> result string.

(** C1, as amended.  Take a run that gets past its early exits: the
    adapter was built, [ps] are the positions of the pictures whose image
    was retrieved, and the batch annotation returned [ds].  Every
    description [d] of [ds] that starts neither with "Error" nor with
    "Unsupported", and whose round the loop gets to, is spliced into the
    document: in the final document its picture's annotations are the
    former ones followed by the entry holding [d]; if the picture had no
    caption, its captions are one reference to a text item of the final
    document that is labelled CAPTION and whose text begins with
    "Image Description:" followed by [d]; if the picture had a caption,
    reading the first reference yielded a pointer, and a text item carried
    that pointer when the round began, then that item's final text holds
    its former text followed by the prefix and [d]. *)
Theorem accepted_descriptions_are_spliced doc opts m ps imgs ds j k d p :
  init_model opts = Return m ->
  extract_images get_image doc 0 (pictures doc) = (ps, imgs) ->
  annotate_images m imgs = Return ds ->
  ps !! j = Some k -> ds !! j = Some d ->
  accepted d = true ->
  reached ref m (zip ps ds) doc j ->
  pictures doc !! k = Some p ->
  exists p',
    pictures (fst (add_bedrock_picture_descriptions init_model
        annotate_images get_image ref doc opts true)) !! k = Some p'
    /\ annotations p' = (annotations p ++ [payload m d])%list
    /\ (captions p = [] ->
        exists n t,
          captions p' = [new_text_ref n]
          /\ texts (fst (add_bedrock_picture_descriptions init_model
              annotate_images get_image ref doc opts true)) !! n = Some t
          /\ self_ref t = cref (new_text_ref n)
          /\ label t = CAPTION
          /\ startswith (text t) ("Image Description:" +:+ d) = true)
    /\ (forall first rest r jt t0,
          captions p = first :: rest ->
          ref first = Return r ->
          find_ref r (texts (before ref m (zip ps ds) doc j)) = Some (jt, t0) ->
          exists t s,
            texts (fst (add_bedrock_picture_descriptions init_model
                annotate_images get_image ref doc opts true)) !! jt = Some t
            /\ text t = text t0 +:+ description_prefix +:+ d +:+ s).
Proof.
  intros Hm He Ha Hj Hd Hacc Hreach Hp.
  rewrite (add_run _ _ _ _ _ _ _ _ _ _ Hm He Ha).
  destruct (extract_images_spec _ _ _ _ _ _ He) as (_ & Hnd & _).
  pose proof (zip_fst_NoDup ps ds Hnd) as Hndz.
  assert (Hw : zip ps ds !! j = Some (k, d)) by now apply lookup_zip_Some.
  pose proof (before_untouched ref m _ doc _ _ _ Hndz Hw) as Hbefore.
  rewrite Hp in Hbefore.
  set (docj := before ref m (zip ps ds) doc j) in *.
  destruct (splice_all_after ref m _ doc _ _ _ Hw Hreach) as (rest' & Hafter).
  fold docj in Hafter.
  exists (spliced_picture m d (length (texts docj)) p).
  split; [now apply splice_all_touched|].
  split.
  { now rewrite annotations_spliced, Hacc. }
  split.
  - intros Hc. rewrite captions_spliced, Hc, Hacc.
    destruct (splice_new_caption ref m k d docj p Hbefore Hacc Hc)
      as (t1 & Ht1 & Hr1 & Hl1 & Htx1).
    destruct (splice_all_texts_grow ref m rest' _ _ _ Ht1)
      as (t2 & Ht2 & Hr2 & Hl2 & s & Hs).
    exists (length (texts docj)), t2. rewrite Hafter.
    split; [reflexivity|]. split; [exact Ht2|].
    split; [congruence|]. split; [congruence|].
    unfold startswith. rewrite Hs, Htx1. apply prefix_append.
  - intros first rest r jt t0 Hc Hr Hf.
    rewrite Hafter.
    rewrite (splice_old_caption ref m k d docj p first rest r jt t0
               Hbefore Hacc Hc Hr Hf).
    apply list_find_Some in Hf as (Ht0 & _).
    assert (Ht1 : texts (with_texts
               (alter (append_text (description_prefix +:+ d)) jt)
               (with_pictures (alter (append_annotation (payload m d)) k) docj))
             !! jt = Some (append_text (description_prefix +:+ d) t0)).
    { simpl. now rewrite list_lookup_alter_eq, Ht0. }
    destruct (splice_all_texts_grow ref m rest' _ _ _ Ht1)
      as (t2 & Ht2 & _ & _ & s & Hs).
    exists t2, s. split; [exact Ht2|].
    simpl in Hs. now rewrite !append_assoc in Hs.
Qed.

(** C3, as amended.  In a run that gets past its early exits, the
    description at place [j] of the batch answer belongs to the picture at
    place [j] of the pictures whose image was retrieved (no picture stands
    at two places), which is the picture whose image stands at place [j] of
    the batch.  If that description starts neither with "Error" nor with
    "Unsupported" and the loop gets to its round, the picture's final
    annotations are the former ones followed by the entry for that
    description.  And whatever the run, a picture's final annotations are
    the former ones, alone or followed by the entry for the description at
    the picture's own place. *)
Theorem descriptions_attached_by_position doc opts m ps imgs ds :
  init_model opts = Return m ->
  extract_images get_image doc 0 (pictures doc) = (ps, imgs) ->
  annotate_images m imgs = Return ds ->
  NoDup ps
  /\ (forall j k d, ps !! j = Some k -> ds !! j = Some d ->
     exists p img,
       pictures doc !! k = Some p
       /\ get_image doc p = Return (Some img) /\ imgs !! j = Some img
       /\ (accepted d = true -> reached ref m (zip ps ds) doc j ->
           exists p', pictures (fst (add_bedrock_picture_descriptions init_model
               annotate_images get_image ref doc opts true)) !! k = Some p'
              /\ annotations p' = (annotations p ++ [payload m d])%list))
  /\ (forall k p, pictures doc !! k = Some p ->
        exists p', pictures (fst (add_bedrock_picture_descriptions init_model
            annotate_images get_image ref doc opts true)) !! k = Some p'
          /\ (annotations p' = annotations p
              \/ exists j d, ps !! j = Some k /\ ds !! j = Some d
                   /\ annotations p' = (annotations p ++ [payload m d])%list)).
Proof.
  intros Hm He Ha.
  rewrite (add_run _ _ _ _ _ _ _ _ _ _ Hm He Ha).
  destruct (extract_images_spec _ _ _ _ _ _ He) as (_ & Hnd & Hall).
  pose proof (zip_fst_NoDup ps ds Hnd) as Hndz.
  split; [assumption|]. split.
  - intros j k d Hj Hd.
    destruct (Hall _ _ Hj) as (_ & p & img & Hp & Hg & Hi).
    rewrite Nat.sub_0_r in Hp.
    exists p, img. repeat split; try assumption.
    intros Hacc Hreach.
    assert (Hw : zip ps ds !! j = Some (k, d)) by now apply lookup_zip_Some.
    eexists. split; [now apply (splice_all_touched ref m _ doc j k d p)|].
    now rewrite annotations_spliced, Hacc.
  - intros k p Hp.
    destruct (splice_all_cases ref m (zip ps ds) doc k p Hndz Hp)
      as (p' & Hp' & Hcase).
    exists p'. split; [assumption|].
    destruct Hcase as [->|(j & d & n & Hj & ->)]; [now left|].
    rewrite annotations_spliced. destruct (accepted d).
    + right. apply lookup_zip_Some in Hj as [Hj1 Hj2]. now exists j, d.
    + left. apply app_nil_r.
Qed.

Lemma rejected_iff d :
  accepted d = false <->
  startswith d "Error" = true \/ startswith d "Unsupported" = true.
Proof.
  unfold accepted.
  destruct (startswith d "Error"), (startswith d "Unsupported"); simpl;
    intuition congruence.
Qed.

(** C4.  A round run for a picture with a description that passes the
    guard leaves that picture with its former annotations followed by one
    [PictureDescriptionData] entry holding the description.  And whatever
    the run of the function, the final annotations of every picture are the
    former ones, in place and unchanged, followed by nothing or by one such
    entry. *)
Theorem description_payload_appended :
  (forall m i d doc p,
      pictures doc !! i = Some p -> accepted d = true ->
      exists p',
        pictures (fst (splice ref m i d doc)) !! i = Some p'
        /\ annotations p'
           = (annotations p
                ++ [PictureDescriptionData d (model_provenance m)])%list)
  /\ (forall doc opts enable k p,
        pictures doc !! k = Some p ->
        exists p' added,
          pictures (fst (add_bedrock_picture_descriptions init_model
              annotate_images get_image ref doc opts enable)) !! k = Some p'
          /\ annotations p' = (annotations p ++ added)%list
          /\ (added = [] \/ exists d pr, added = [PictureDescriptionData d pr])).
Proof.
  split.
  - intros m i d doc p Hp Hacc. eexists.
    split; [exact (splice_lookup_same _ _ _ _ _ _ Hp)|].
    now rewrite annotations_spliced, Hacc.
  - intros doc opts enable k p Hp.
    destruct (add_cases init_model annotate_images get_image ref
                doc opts enable k p Hp) as (p' & Hp' & Hcase).
    exists p'.
    destruct Hcase as [->|(m & ps & imgs & ds & j & d & n & _ & _ & _ & _ & _ & ->)].
    + exists []. rewrite app_nil_r. split; [assumption|]. split; [reflexivity | now left].
    + eexists. split; [exact Hp'|]. split; [apply annotations_spliced|].
      destruct (accepted d); [right | now left].
      now exists d, (model_provenance m).
Qed.

(** C5, as amended.  A round run for a picture with a description that
    passes the guard appends a caption reference exactly when the picture
    has no caption: its captions become the one reference to the caption
    item the round creates, which is the last text item of the document,
    labelled CAPTION, with the text "Image Description:" followed by the
    description.  The captions of a picture that has one are left as they
    are. *)
Theorem caption_reference_when_uncaptioned m i d doc p :
  pictures doc !! i = Some p -> accepted d = true ->
  exists p',
    pictures (fst (splice ref m i d doc)) !! i = Some p'
    /\ (captions p = [] ->
        captions p' = [new_text_ref (length (texts doc))]
        /\ exists t,
             texts (fst (splice ref m i d doc)) !! length (texts doc) = Some t
             /\ self_ref t = cref (new_text_ref (length (texts doc)))
             /\ label t = CAPTION
             /\ text t = "Image Description:" +:+ d)
    /\ (captions p <> [] -> captions p' = captions p).
Proof.
  intros Hp Hacc. eexists. split; [exact (splice_lookup_same _ _ _ _ _ _ Hp)|].
  rewrite captions_spliced, Hacc. split.
  - intros Hc. rewrite Hc. split; [reflexivity|].
    now apply splice_new_caption with p.
  - intros Hc. now destruct (captions p).
Qed.

(** Every entry a run adds to the annotations of a picture carries the
    provenance the adapter reports. *)
Lemma added_entries_carry_model_provenance doc opts enable k p :
  pictures doc !! k = Some p ->
  exists p' added,
    pictures (fst (add_bedrock_picture_descriptions init_model
        annotate_images get_image ref doc opts enable)) !! k = Some p'
    /\ annotations p' = (annotations p ++ added)%list
    /\ forall a, a ∈ added ->
         exists m d, init_model opts = Return m
                     /\ a = PictureDescriptionData d (model_provenance m).
Proof.
  intros Hp.
  destruct (add_cases init_model annotate_images get_image ref
              doc opts enable k p Hp) as (p' & Hp' & Hcase).
  exists p'.
  destruct Hcase as [->|(m & ps & imgs & ds & j & d & n & Hm & _ & _ & _ & _ & ->)].
  - exists []. rewrite app_nil_r. repeat split; try assumption.
    intros a Ha. now apply elem_of_nil in Ha.
  - eexists. split; [exact Hp'|]. split; [apply annotations_spliced|].
    intros a Ha. destruct (accepted d); [|now apply elem_of_nil in Ha].
    apply list_elem_of_singleton in Ha as ->. now exists m, d.
Qed.

(** C8.  When remote services are disabled, or building the adapter
    raises, or no picture of the document yields an image, or the batch
    annotation raises, the function returns with the document exactly as it
    was. *)
Theorem early_exit_leaves_document_unchanged doc opts enable :
  enable = false
  \/ (exists e, init_model opts = Raise e)
  \/ Forall (fun p => forall img, get_image doc p <> Return (Some img))
       (pictures doc)
  \/ (exists m e,
        init_model opts = Return m
        /\ annotate_images m
             (snd (extract_images get_image doc 0 (pictures doc))) = Raise e) ->
  add_bedrock_picture_descriptions init_model
      annotate_images get_image ref doc opts enable = (doc, Return tt).
Proof.
  unfold add_bedrock_picture_descriptions.
  intros [->|[(e & He)|[Hnone|(m & e & Hm & Ha)]]].
  - reflexivity.
  - rewrite He. now destruct enable.
  - rewrite (extract_images_none _ _ _ _ Hnone).
    destruct enable; [|reflexivity]. simpl.
    now destruct (init_model opts).
  - rewrite Hm. destruct enable; [|reflexivity]. simpl.
    destruct (extract_images get_image doc 0 (pictures doc)) as [ps imgs].
    simpl in Ha. destruct imgs; [reflexivity | now rewrite Ha].
Qed.

(** C9.  For a description that starts with "Error" or with
    "Unsupported", the round is the identity on the document, whatever the
    picture: no annotation, no caption item, no change of a caption's text,
    no caption reference.  And in a run of the function the picture such a
    description belongs to is, at the end, the picture it was. *)
Theorem rejected_description_attaches_nothing d :
  startswith d "Error" = true \/ startswith d "Unsupported" = true ->
  (forall m i doc, splice ref m i d doc = (doc, Return tt))
  /\ (forall doc opts m ps imgs ds j k p,
        init_model opts = Return m ->
        extract_images get_image doc 0 (pictures doc) = (ps, imgs) ->
        annotate_images m imgs = Return ds ->
        ps !! j = Some k -> ds !! j = Some d ->
        pictures doc !! k = Some p ->
        pictures (fst (add_bedrock_picture_descriptions init_model
            annotate_images get_image ref doc opts true)) !! k = Some p).
Proof.
  intros Hrej. apply rejected_iff in Hrej. split.
  - intros m i doc. unfold splice. rewrite Hrej.
    now destruct (pictures doc !! i).
  - intros doc opts m ps imgs ds j k p Hm He Ha Hj Hd Hp.
    rewrite (add_run _ _ _ _ _ _ _ _ _ _ Hm He Ha).
    destruct (extract_images_spec _ _ _ _ _ _ He) as (_ & Hnd & _).
    pose proof (zip_fst_NoDup ps ds Hnd) as Hndz.
    assert (Hw : zip ps ds !! j = Some (k, d)) by now apply lookup_zip_Some.
    destruct (splice_all_cases ref m (zip ps ds) doc k p Hndz Hp)
      as (p' & Hp' & Hcase).
    rewrite Hp'. f_equal.
    destruct Hcase as [->|(j' & d' & n & Hj' & ->)]; [reflexivity|].
    rewrite <- (same_round _ _ _ _ _ _ Hndz Hw Hj').
    unfold spliced_picture. now rewrite Hrej.
Qed.

End Claims.

(** * The claim about the provenance tag *)

(** C6.  With the adapter built as the specification describes it, whatever
    the run of the function, every entry it adds to the annotations of a
    picture is a [PictureDescriptionData] whose provenance is the provenance
    tag of the options the function was given; the options' default tag is
    "amazon-bedrock". *)
Theorem payload_records_configured_provenance {Image : Type}
  (connect : PictureDescriptionBedrockApiOptions -> result unit)
  (annotate_images :
     PictureDescriptionBedrockApiModel -> list Image -> result (list string))
  (get_image : DoclingDocument -> PictureItem -> result (option Image))
  (ref : RefItem -> result string) :
  (forall doc opts enable k p,
      pictures doc !! k = Some p ->
      exists p' added,
        pictures (fst (add_bedrock_picture_descriptions (new_model connect)
                         annotate_images get_image ref doc opts enable))
          !! k = Some p'
        /\ annotations p' = (annotations p ++ added)%list
        /\ forall a, a ∈ added ->
             exists d, a = PictureDescriptionData d (provenance opts))
  /\ (forall b, provenance (default_options b) = "amazon-bedrock").
Proof.
  split; [|reflexivity].
  intros doc opts enable k p Hp.
  destruct (added_entries_carry_model_provenance (new_model connect)
              annotate_images get_image ref doc opts enable k p Hp)
    as (p' & added & Hp' & Hann & Hadded).
  exists p', added. split; [exact Hp'|]. split; [exact Hann|].
  intros a Ha. destruct (Hadded a Ha) as (m & d & Hm & ->).
  exists d. now rewrite (new_model_provenance _ _ _ Hm).
Qed.

(** * The claim about [describe_image] *)

Section DescribeImage.

Context {Image : Type}.
Variable init_model :
  PictureDescriptionBedrockApiOptions -> result PictureDescriptionBedrockApiModel.
Variable annotate_images :
  PictureDescriptionBedrockApiModel -> list Image -> result (list string).
Variable Image_open : string -> result Image.

(** C10.  For every path [describe_image] returns a string and does not
    raise: the first description when the adapter yields a list that is
    not empty, "No description was generated" when it yields the empty
    list, and "Error: " followed by the message of the exception when
    building the adapter, opening the image or annotating raises. *)
Theorem describe_image_never_raises image_path :
  (exists s,
      describe_image init_model annotate_images Image_open image_path = Return s)
  /\ (forall m img d rest,
        init_model describe_image_options = Return m ->
        Image_open image_path = Return img ->
        annotate_images m [img] = Return (d :: rest) ->
        describe_image init_model annotate_images Image_open image_path
        = Return d)
  /\ (forall m img,
        init_model describe_image_options = Return m ->
        Image_open image_path = Return img ->
        annotate_images m [img] = Return [] ->
        describe_image init_model annotate_images Image_open image_path
        = Return "No description was generated")
  /\ (forall e,
        init_model describe_image_options = Raise e
        \/ (exists m, init_model describe_image_options = Return m
              /\ Image_open image_path = Raise e)
        \/ (exists m img, init_model describe_image_options = Return m
              /\ Image_open image_path = Return img
              /\ annotate_images m [img] = Raise e) ->
        describe_image init_model annotate_images Image_open image_path
        = Return ("Error: " +:+ str e)
        /\ startswith ("Error: " +:+ str e) "Error: " = true).
Proof.
  unfold describe_image, try_except, bind.
  split; [|split; [|split]].
  - destruct (init_model describe_image_options) as [m|e]; [|now eexists].
    destruct (Image_open image_path) as [img|e]; [|now eexists].
    destruct (annotate_images m [img]) as [[|d rest]|e]; now eexists.
  - intros m img d rest -> -> ->. reflexivity.
  - intros m img -> -> ->. reflexivity.
  - intros e H. split; [|apply prefix_append].
    destruct H as [->|[(m & -> & ->)|(m & img & -> & -> & ->)]]; reflexivity.
Qed.

End DescribeImage.

(** * The claim about the configuration record *)

(** C2.  The class body declares, besides the class attribute [kind], exactly
    the ten fields model_id, region_name, profile_name, timeout, max_workers,
    temperature, max_tokens, top_k, prompt and provenance, with the types of
    the source.  An options value is its inherited base options together with
    these ten, and nothing more: a name outside the class body is read on the
    inherited part, a name of the class body is read on the class whatever is
    inherited, and two values with the same base options that read alike on
    the ten fields are the same value.  Read on the default options, each
    declared name yields the default the class body writes. *)
Theorem options_record_fields :
  decl_name <$> own_fields
  = ["model_id"; "region_name"; "profile_name"; "timeout"; "max_workers";
     "temperature"; "max_tokens"; "top_k"; "prompt"; "provenance"]
  /\ decl_type <$> own_fields
     = [Tstr; Toptional Tstr; Toptional Tstr; Tfloat; Tint;
        Tfloat; Tint; Tint; Tstr; Tstr]
  /\ (forall inherited o name,
        name ∉ decl_name <$> class_body ->
        getattr inherited o name = inherited (base o) name)
  /\ (forall inherited1 inherited2 o name,
        name ∈ decl_name <$> class_body ->
        is_Some (getattr inherited1 o name)
        /\ getattr inherited1 o name = getattr inherited2 o name)
  /\ (forall inherited b,
        Forall (fun d => getattr inherited (default_options b) (decl_name d)
                         = Some (decl_default d)) class_body)
  /\ (forall inherited o1 o2,
        base o1 = base o2 ->
        (forall d, d ∈ own_fields ->
                   getattr inherited o1 (decl_name d)
                   = getattr inherited o2 (decl_name d)) ->
        o1 = o2).
Proof.
  split; [reflexivity|]. split; [reflexivity|].
  split; [|split; [|split]].
  - intros inherited o name Hout. unfold getattr.
    repeat match goal with
    | |- (if String.eqb name ?s then _ else _) = _ =>
        destruct (String.eqb_spec name s) as [->|_];
          [exfalso; apply Hout; apply list_elem_of_In; simpl; tauto|]
    end.
    reflexivity.
  - intros inherited1 inherited2 o name Hin.
    apply list_elem_of_In in Hin. simpl in Hin.
    repeat (destruct Hin as [<-|Hin]; [split; [now eexists | reflexivity]|]).
    destruct Hin.
  - intros inherited b. repeat constructor.
  - intros inherited [b1 a1 r1 p1 t1 w1 te1 mt1 k1 pr1 pv1]
      [b2 a2 r2 p2 t2 w2 te2 mt2 k2 pr2 pv2] Hb Hread.
    simpl in Hb. subst b2.
    assert (Hat : forall name,
               name ∈ decl_name <$> own_fields ->
               getattr inherited
                 {| base := b1; model_id := a1; region_name := r1;
                    profile_name := p1; timeout := t1; max_workers := w1;
                    temperature := te1; max_tokens := mt1; top_k := k1;
                    prompt := pr1; provenance := pv1 |} name
               = getattr inherited
                   {| base := b1; model_id := a2; region_name := r2;
                      profile_name := p2; timeout := t2; max_workers := w2;
                      temperature := te2; max_tokens := mt2; top_k := k2;
                      prompt := pr2; provenance := pv2 |} name).
    { intros name Hname. apply list_elem_of_fmap in Hname as (d & -> & Hd).
      now apply Hread. }
    assert (Hin : forall name, In name (decl_name <$> own_fields) ->
                               name ∈ decl_name <$> own_fields)
      by (intros name; apply list_elem_of_In).
    pose proof (Hat "model_id" (Hin "model_id" ltac:(vm_compute; tauto))) as H1.
    pose proof (Hat "region_name" (Hin "region_name" ltac:(vm_compute; tauto))) as H2.
    pose proof (Hat "profile_name" (Hin "profile_name" ltac:(vm_compute; tauto))) as H3.
    pose proof (Hat "timeout" (Hin "timeout" ltac:(vm_compute; tauto))) as H4.
    pose proof (Hat "max_workers" (Hin "max_workers" ltac:(vm_compute; tauto))) as H5.
    pose proof (Hat "temperature" (Hin "temperature" ltac:(vm_compute; tauto))) as H6.
    pose proof (Hat "max_tokens" (Hin "max_tokens" ltac:(vm_compute; tauto))) as H7.
    pose proof (Hat "top_k" (Hin "top_k" ltac:(vm_compute; tauto))) as H8.
    pose proof (Hat "prompt" (Hin "prompt" ltac:(vm_compute; tauto))) as H9.
    pose proof (Hat "provenance" (Hin "provenance" ltac:(vm_compute; tauto))) as H10.
    clear Hat Hread Hin. cbn in *.
    destruct r1, r2, p1, p2, t1, t2; try discriminate; congruence.
Qed.

(** * The claim about the worker pool *)

Section Pool.

Context {Image : Type}.
Variable call : Image -> string.

(** The busy workers of a pool. *)
Lemma busy_after_take (ws : list (worker Image)) w place img :
  ws !! w = Some Idle ->
  length (List.filter is_busy (<[w := Busy place img]> ws))
  = S (length (List.filter is_busy ws)).
Proof.
  revert w. induction ws as [|x ws IH]; intros [|w] Hw; simpl in *;
    try discriminate.
  - now injection Hw as ->.
  - destruct (is_busy x); simpl; now rewrite (IH _ Hw).
Qed.

Lemma busy_after_complete (ws : list (worker Image)) w place img :
  ws !! w = Some (Busy place img) ->
  S (length (List.filter is_busy (<[w := Idle]> ws)))
  = length (List.filter is_busy ws).
Proof.
  revert w. induction ws as [|x ws IH]; intros [|w] Hw; simpl in *;
    try discriminate.
  - now injection Hw as ->.
  - destruct (is_busy x); simpl; now rewrite <- (IH _ Hw).
Qed.

Lemma step_accounted n (s s' : pool Image) e :
  accounted n s -> step call s e = Some s' -> accounted n s'.
Proof.
  intros [Hn Hacc]. destruct e as [w|w]; simpl.
  - destruct (workers s !! w) as [[|place img]|] eqn:Hw; try discriminate.
    destruct (queue s) as [|[place img] rest]; try discriminate.
    intros [= <-]. split; simpl.
    + now rewrite length_insert.
    + rewrite length_app, (busy_after_take _ _ _ _ Hw). simpl. lia.
  - destruct (workers s !! w) as [[|place img]|] eqn:Hw; try discriminate.
    intros [= <-]. split; simpl.
    + now rewrite length_insert.
    + rewrite length_app. pose proof (busy_after_complete _ _ _ _ Hw). simpl. lia.
Qed.

Lemma run_accounted n schedule (s s' : pool Image) :
  accounted n s -> run call s schedule = Some s' -> accounted n s'.
Proof.
  revert s. induction schedule as [|e rest IH]; intros s Hs; simpl.
  - now intros [= <-].
  - destruct (step call s e) as [s1|] eqn:E; [|discriminate].
    apply IH. now apply step_accounted with s e.
Qed.

Lemma no_busy_at_start n :
  length (List.filter is_busy (replicate n (@Idle Image))) = 0.
Proof. induction n as [|n IH]; simpl; [reflexivity | exact IH]. Qed.

(** C7.  In the pool made for a batch with the configured worker count,
    after any schedule of steps the calls that have come back are among
    those started, and the number of calls in flight, started and not yet
    back, is at most that count; the count the options give by default
    is 3. *)
Theorem calls_in_flight_bounded :
  (forall max_workers (images : list Image) schedule s0 s,
      submit max_workers images = Some s0 ->
      run call s0 schedule = Some s ->
      length (completed s) <= length (started s)
      /\ (Z.of_nat (in_flight s) <= max_workers)%Z)
  /\ (forall b, max_workers (default_options b) = 3%Z).
Proof.
  split; [|reflexivity].
  intros w images schedule s0 s Hsub Hrun. unfold submit in Hsub.
  destruct (0 <? w)%Z eqn:Hw; [|discriminate].
  injection Hsub as <-. apply Z.ltb_lt in Hw.
  assert (Hstart : accounted (Z.to_nat w)
            {| queue := imap (fun i img => (i, img)) images;
               workers := replicate (Z.to_nat w) (@Idle Image);
               started := []; completed := [];
               answers := replicate (length images) None |}).
  { split; simpl; [apply length_replicate | now rewrite no_busy_at_start]. }
  destruct (run_accounted _ schedule _ s Hstart Hrun) as [Hn Hacc].
  pose proof (List.filter_length_le is_busy (workers s)) as Hle.
  unfold in_flight. split; lia.
Qed.

End Pool.

(** * The statements at work on the sample document *)

Lemma accepted_descriptions_are_spliced_witness :
  exists p',
    pictures (fst (add_bedrock_picture_descriptions Sample.init_model
                     (Sample.answer ["A bar chart."]) Sample.get_image Sample.ref
                     (Sample.document [Sample.plain_picture]) Sample.opts true))
      !! 0 = Some p'
    /\ annotations p'
       = [PictureMiscData "chart";
          PictureDescriptionData "A bar chart." "amazon-bedrock"].
Proof.
  destruct (accepted_descriptions_are_spliced Sample.init_model
              (Sample.answer ["A bar chart."]) Sample.get_image Sample.ref
              (Sample.document [Sample.plain_picture]) Sample.opts Sample.model
              [0] ["#/pictures/0"] ["A bar chart."] 0 0 "A bar chart."
              Sample.plain_picture
              eq_refl eq_refl eq_refl eq_refl eq_refl eq_refl eq_refl eq_refl)
    as (p' & Hp' & Hann & _).
  exists p'. split; [exact Hp' | exact Hann].
Defined.

(** C1 as stated fails: a description that starts with "Unsupported" is
    returned for a picture whose image was retrieved, and the run leaves the
    document as it was; the description is in no annotation. *)
Lemma unsupported_description_is_not_spliced :
  let d := "Unsupported image format" in
  let doc := Sample.document [Sample.plain_picture] in
  let final := add_bedrock_picture_descriptions Sample.init_model
                 (Sample.answer [d]) Sample.get_image Sample.ref
                 doc Sample.opts true in
  extract_images Sample.get_image doc 0 (pictures doc) = ([0], ["#/pictures/0"])
  /\ final = (doc, Return tt)
  /\ ~ (exists p' pr, pictures (fst final) !! 0 = Some p'
          /\ PictureDescriptionData d pr ∈ annotations p').
Proof.
  split; [reflexivity|]. split; [reflexivity|].
  intros (p' & pr & Hp' & Hin). vm_compute in Hp'. injection Hp' as <-.
  apply list_elem_of_singleton in Hin. discriminate.
Qed.

Lemma descriptions_attached_by_position_witness :
  let ds := ["Error: timeout"; "A pie chart."] in
  let doc := Sample.document [Sample.plain_picture; Sample.second_picture] in
  exists p',
    pictures (fst (add_bedrock_picture_descriptions Sample.init_model
                     (Sample.answer ds) Sample.get_image Sample.ref
                     doc Sample.opts true)) !! 1 = Some p'
    /\ annotations p' = [PictureDescriptionData "A pie chart." "amazon-bedrock"].
Proof.
  intros ds doc.
  destruct (descriptions_attached_by_position Sample.init_model
              (Sample.answer ds) Sample.get_image Sample.ref
              doc Sample.opts Sample.model [0; 1]
              ["#/pictures/0"; "#/pictures/1"] ds
              eq_refl eq_refl eq_refl) as (_ & Hplace & _).
  destruct (Hplace 1 1 "A pie chart." eq_refl eq_refl)
    as (p & img & Hp & _ & _ & Hattach).
  injection Hp as <-.
  destruct (Hattach eq_refl eq_refl) as (p' & Hp' & Hann).
  exists p'. split; [exact Hp' | exact Hann].
Defined.

(** C3 as stated fails: the description at the first place of the answer
    belongs to the first picture whose image was retrieved, and that picture
    ends as it was, while the second picture gets the second description. *)
Lemma error_description_is_not_attached :
  let ds := ["Error: timeout"; "A pie chart."] in
  let doc := Sample.document [Sample.plain_picture; Sample.second_picture] in
  let final := fst (add_bedrock_picture_descriptions Sample.init_model
                      (Sample.answer ds) Sample.get_image Sample.ref
                      doc Sample.opts true) in
  extract_images Sample.get_image doc 0 (pictures doc)
  = ([0; 1], ["#/pictures/0"; "#/pictures/1"])
  /\ pictures final !! 0 = Some Sample.plain_picture
  /\ annotations <$> pictures final !! 1
     = Some [PictureDescriptionData "A pie chart." "amazon-bedrock"]
  /\ ~ (exists p' pr, pictures final !! 0 = Some p'
          /\ PictureDescriptionData "Error: timeout" pr ∈ annotations p').
Proof.
  split; [reflexivity|]. split; [reflexivity|]. split; [reflexivity|].
  intros (p' & pr & Hp' & Hin). vm_compute in Hp'. injection Hp' as <-.
  apply list_elem_of_singleton in Hin. discriminate.
Qed.

Lemma description_payload_appended_witness :
  exists p',
    pictures (fst (splice Sample.ref Sample.model 0 "A bar chart."
                     (Sample.document [Sample.plain_picture]))) !! 0 = Some p'
    /\ annotations p'
       = [PictureMiscData "chart";
          PictureDescriptionData "A bar chart." "amazon-bedrock"].
Proof.
  exact (proj1 (description_payload_appended Sample.init_model
                  (Sample.answer ["A bar chart."]) Sample.get_image Sample.ref)
           Sample.model 0 "A bar chart."
           (Sample.document [Sample.plain_picture]) Sample.plain_picture
           eq_refl eq_refl).
Defined.

Lemma caption_reference_when_uncaptioned_witness :
  exists p',
    pictures (fst (splice Sample.ref Sample.model 0 "A bar chart."
                     (Sample.document [Sample.plain_picture]))) !! 0 = Some p'
    /\ captions p' = [{| cref := "#/texts/1" |}].
Proof.
  destruct (caption_reference_when_uncaptioned Sample.ref Sample.model 0
              "A bar chart." (Sample.document [Sample.plain_picture])
              Sample.plain_picture eq_refl eq_refl) as (p' & Hp' & Hnew & _).
  exists p'. split; [exact Hp' | exact (proj1 (Hnew eq_refl))].
Defined.

(** C5 as stated fails: a picture that has a caption receives a
    description, and its captions are the ones it had; no reference was
    appended, whether the host answers [.ref] with the pointer or refuses
    it. *)
Lemma captioned_picture_gets_no_reference :
  let doc := Sample.document [Sample.captioned_picture] in
  let final ref := fst (add_bedrock_picture_descriptions Sample.init_model
                          (Sample.answer ["A bar chart."]) Sample.get_image ref
                          doc Sample.opts true) in
  pictures (final Sample.ref) !! 0
  = Some {| picture_self_ref := "#/pictures/0";
            picture_parent := Some {| cref := "#/body" |};
            captions := [{| cref := "#/texts/0" |}];
            annotations :=
              [PictureDescriptionData "A bar chart." "amazon-bedrock"] |}
  /\ pictures (final Sample.no_ref) !! 0 = pictures (final Sample.ref) !! 0
  /\ ~ (exists p' r, pictures (final Sample.ref) !! 0 = Some p'
          /\ captions p' = (captions Sample.captioned_picture ++ [r])%list).
Proof.
  split; [reflexivity|]. split; [reflexivity|].
  intros (p' & r & Hp' & Hc). vm_compute in Hp'. injection Hp' as <-.
  discriminate.
Qed.

Lemma payload_records_configured_provenance_witness :
  exists p' added,
    pictures (fst (add_bedrock_picture_descriptions Sample.init_model
                     (Sample.answer ["A bar chart."]) Sample.get_image Sample.ref
                     (Sample.document [Sample.plain_picture]) Sample.opts true))
      !! 0 = Some p'
    /\ annotations p' = (annotations Sample.plain_picture ++ added)%list
    /\ forall a, a ∈ added ->
         exists d, a = PictureDescriptionData d "amazon-bedrock".
Proof.
  exact (proj1 (payload_records_configured_provenance Sample.connect
                  (Sample.answer ["A bar chart."]) Sample.get_image Sample.ref)
           (Sample.document [Sample.plain_picture]) Sample.opts true 0
           Sample.plain_picture eq_refl).
Defined.

Lemma early_exit_leaves_document_unchanged_witness :
  add_bedrock_picture_descriptions Sample.init_model Sample.throttled
    Sample.get_image Sample.ref
    (Sample.document [Sample.plain_picture]) Sample.opts true
  = (Sample.document [Sample.plain_picture], Return tt).
Proof.
  apply (early_exit_leaves_document_unchanged Sample.init_model Sample.throttled
           Sample.get_image Sample.ref).
  right. right. right.
  exists Sample.model, {| str := "ThrottlingException" |}.
  split; reflexivity.
Defined.

Lemma rejected_description_attaches_nothing_witness :
  splice Sample.ref Sample.model 0 "Error: timeout"
    (Sample.document [Sample.plain_picture])
  = (Sample.document [Sample.plain_picture], Return tt).
Proof.
  apply (rejected_description_attaches_nothing Sample.init_model
           (Sample.answer ["Error: timeout"]) Sample.get_image Sample.ref
           "Error: timeout").
  left. reflexivity.
Defined.

Lemma describe_image_never_raises_witness :
  describe_image Sample.init_model (Sample.answer ["A cat."; "A dog."])
    Sample.Image_open "cat.png" = Return "A cat."
  /\ describe_image Sample.failing_init (Sample.answer ["A cat."])
       Sample.Image_open "cat.png"
     = Return "Error: Unable to locate credentials".
Proof.
  split.
  - apply (proj1 (proj2 (describe_image_never_raises Sample.init_model
                           (Sample.answer ["A cat."; "A dog."])
                           Sample.Image_open "cat.png"))
             {| options := describe_image_options;
                model_provenance := "amazon-bedrock" |}
             "cat.png" "A cat." ["A dog."]); reflexivity.
  - apply (proj2 (proj2 (proj2 (describe_image_never_raises Sample.failing_init
                           (Sample.answer ["A cat."])
                           Sample.Image_open "cat.png")))
             {| str := "Unable to locate credentials" |}).
    left. reflexivity.
Defined.

Lemma calls_in_flight_bounded_witness :
  exists s0 s,
    submit 2 ["a"; "b"; "c"] = Some s0
    /\ run Sample.call s0 [Take 0; Take 1; Complete 0; Take 0] = Some s
    /\ started s = [0; 1; 2] /\ completed s = [0]
    /\ in_flight s = 2
    /\ (Z.of_nat (in_flight s) <= 2)%Z.
Proof.
  eexists. eexists. split; [reflexivity|]. split; [reflexivity|].
  split; [reflexivity|]. split; [reflexivity|]. split; [reflexivity|].
  eapply (fun H1 H2 =>
            proj2 (proj1 (calls_in_flight_bounded Sample.call) 2%Z
                     ["a"; "b"; "c"] [Take 0; Take 1; Complete 0; Take 0]
                     _ _ H1 H2)); reflexivity.
Defined.

(** * Further properties of the code *)

(** ** Collecting the pictures, once more *)

Section ExtractMore.

Context {Image : Type}.
Variable get_image : DoclingDocument -> PictureItem -> result (option Image).

Lemma extract_images_complete doc i l pics imgs :
  extract_images get_image doc i l = (pics, imgs) ->
  forall k p img, l !! k = Some p -> get_image doc p = Return (Some img) ->
                  (i + k) ∈ pics.
Proof.
  revert i pics imgs. induction l as [|p0 l IH]; intros i pics imgs H k p img Hk Hg.
  { discriminate. }
  simpl in H.
  destruct (extract_images get_image doc (S i) l) as [pics' imgs'] eqn:E.
  destruct k as [|k]; simpl in Hk.
  - injection Hk as ->. rewrite Hg in H. injection H as <- <-.
    rewrite Nat.add_0_r. left.
  - pose proof (IH _ _ _ E k p img Hk Hg) as Hin.
    replace (i + S k) with (S i + k) by lia.
    destruct (get_image doc p0) as [[img0|]|e]; injection H as <- <-;
      [right|..]; exact Hin.
Qed.

Lemma extract_images_increasing doc i l pics imgs :
  extract_images get_image doc i l = (pics, imgs) ->
  forall j1 j2 k1 k2, pics !! j1 = Some k1 -> pics !! j2 = Some k2 ->
                      j1 < j2 -> k1 < k2.
Proof.
  revert i pics imgs. induction l as [|p0 l IH]; intros i pics imgs H.
  { injection H as <- <-. discriminate. }
  simpl in H.
  destruct (extract_images get_image doc (S i) l) as [pics' imgs'] eqn:E.
  pose proof (IH _ _ _ E) as IH'.
  destruct (extract_images_spec _ _ _ _ _ _ E) as (_ & _ & Hall).
  destruct (get_image doc p0) as [[img0|]|e]; injection H as <- <-;
    [|exact IH'|exact IH'].
  intros [|j1] [|j2] k1 k2 H1 H2 Hlt; simpl in *; try lia.
  - injection H1 as <-. apply Hall in H2 as [Hle _]. lia.
  - apply (IH' j1 j2); [assumption | assumption | lia].
Qed.

End ExtractMore.

(** ** The loop, once more *)

Section LoopMore.

Variable ref : RefItem -> result string.
Variable m : PictureDescriptionBedrockApiModel.

Lemma splice_all_length work doc :
  length (pictures (fst (splice_all ref m work doc))) = length (pictures doc).
Proof.
  revert doc. induction work as [|[i d] rest IH]; intros doc; [reflexivity|].
  assert (Hone : length (pictures (fst (splice ref m i d doc)))
                 = length (pictures doc)).
  { destruct (pictures doc !! i) as [p|] eqn:Hp.
    - rewrite (splice_pictures _ _ _ _ _ _ Hp). apply length_insert.
    - unfold splice. now rewrite Hp. }
  rewrite splice_all_cons.
  destruct (snd (splice ref m i d doc)) as [u|e]; simpl; [|exact Hone].
  now rewrite IH.
Qed.

(** As [splice_all_cases], with the round named: the loop got to it, and
    the picture is as that round left it. *)
Lemma splice_all_cases_reached work doc k p :
  NoDup work.*1 ->
  pictures doc !! k = Some p ->
  pictures (fst (splice_all ref m work doc)) !! k = Some p
  \/ exists j d,
       work !! j = Some (k, d) /\ reached ref m work doc j
       /\ pictures (fst (splice_all ref m work doc)) !! k
          = Some (spliced_picture m d
                    (length (texts (before ref m work doc j))) p).
Proof.
  intros Hnd Hp.
  destruct (decide (k ∈ work.*1)) as [Hin|Hnotin].
  2: { left. now rewrite splice_all_untouched. }
  apply list_elem_of_lookup in Hin as [j Hj].
  rewrite list_lookup_fmap in Hj.
  destruct (work !! j) as [[k' d]|] eqn:Hw; [|discriminate].
  simpl in Hj. injection Hj as ->.
  destruct (snd (splice_all ref m (take j work) doc)) as [[]|e] eqn:Hr.
  - right. exists j, d. split; [assumption|]. split; [exact Hr|].
    now apply splice_all_touched.
  - left. revert doc j Hw Hr Hp.
    induction work as [|[i0 d0] rest IH]; intros doc j Hw Hr Hp; [discriminate|].
    rewrite fmap_cons in Hnd. apply NoDup_cons in Hnd as [Hnotin Hnd].
    destruct j as [|j]; [discriminate|]. simpl in Hw.
    assert (Hne : i0 <> k).
    { intros ->. apply Hnotin. apply list_elem_of_fmap.
      exists (k, d). split; [reflexivity|]. now apply list_elem_of_lookup_2 in Hw. }
    change (take (S j) ((i0, d0) :: rest)) with ((i0, d0) :: take j rest) in Hr.
    rewrite splice_all_cons in Hr |- *.
    destruct (snd (splice ref m i0 d0 doc)) as [u|e0]; simpl.
    + apply (IH Hnd _ j); try assumption. now rewrite splice_lookup_other.
    + now rewrite splice_lookup_other.
Qed.

End LoopMore.

(** ** What a run keeps *)

Section Kept.

Context {Image : Type}.
Variable init_model :
  PictureDescriptionBedrockApiOptions -> result PictureDescriptionBedrockApiModel.
Variable annotate_images :
  PictureDescriptionBedrockApiModel -> list Image -> result (list string).
Variable get_image : DoclingDocument -> PictureItem -> result (option Image).
Variable ref : RefItem -> result string.

(** Every run is the loop over some list of rounds for different pictures:
    the empty one at an early exit. *)
Lemma add_as_loop doc opts enable :
  exists m work,
    NoDup work.*1
    /\ add_bedrock_picture_descriptions init_model annotate_images get_image ref
         doc opts enable
       = splice_all ref m work doc.
Proof.
  pose (m0 := {| options := opts; model_provenance := "" |}).
  destruct enable; [|exists m0, []; split; [apply NoDup_nil_2 | reflexivity]].
  destruct (init_model opts) as [m|e] eqn:Hm.
  2: { exists m0, []. split; [apply NoDup_nil_2|].
       unfold add_bedrock_picture_descriptions. now rewrite Hm. }
  destruct (extract_images get_image doc 0 (pictures doc)) as [ps imgs] eqn:He.
  destruct (annotate_images m imgs) as [ds|e] eqn:Ha.
  - exists m, (zip ps ds). split.
    + destruct (extract_images_spec _ _ _ _ _ _ He) as (_ & Hnd & _).
      now apply zip_fst_NoDup.
    + now apply add_run with imgs.
  - exists m, []. split; [apply NoDup_nil_2|].
    unfold add_bedrock_picture_descriptions. simpl. rewrite Hm, He.
    destruct imgs; [reflexivity | now rewrite Ha].
Qed.

(** X1.  The pictures collected for the batch are exactly those of the
    document whose image was retrieved, in the order of the document, and
    the batch holds the image of each at the same place: a picture whose
    retrieval yields nothing or raises is left out, and nothing else is. *)
Theorem collected_pictures_are_the_retrievable_ones doc ps imgs :
  extract_images get_image doc 0 (pictures doc) = (ps, imgs) ->
  (forall k, k ∈ ps <->
             exists p img, pictures doc !! k = Some p
                           /\ get_image doc p = Return (Some img))
  /\ (forall j1 j2 k1 k2, ps !! j1 = Some k1 -> ps !! j2 = Some k2 ->
                          j1 < j2 -> k1 < k2)
  /\ (forall j k p, ps !! j = Some k -> pictures doc !! k = Some p ->
                    get_image doc p = Return (imgs !! j)).
Proof.
  intros He.
  destruct (extract_images_spec _ _ _ _ _ _ He) as (_ & _ & Hall).
  split; [|split].
  - intros k. split.
    + intros Hin. apply list_elem_of_lookup in Hin as [j Hj].
      destruct (Hall _ _ Hj) as (_ & p & img & Hp & Hg & _).
      rewrite Nat.sub_0_r in Hp. now exists p, img.
    + intros (p & img & Hp & Hg).
      exact (extract_images_complete _ _ _ _ _ _ He k p img Hp Hg).
  - exact (extract_images_increasing _ _ _ _ _ _ He).
  - intros j k p Hj Hp.
    destruct (Hall _ _ Hj) as (_ & p' & img & Hp' & Hg & Hi).
    rewrite Nat.sub_0_r in Hp'. rewrite Hp in Hp'. injection Hp' as <-.
    now rewrite Hi.
Qed.

(** X2.  A picture whose image is not retrieved ([get_image] yields
    [None] or raises) is never modified, whatever the options, the adapter
    and its answer. *)
Theorem unretrievable_picture_is_never_modified doc opts enable k p :
  pictures doc !! k = Some p ->
  (forall img, get_image doc p <> Return (Some img)) ->
  pictures (fst (add_bedrock_picture_descriptions init_model annotate_images
                   get_image ref doc opts enable)) !! k = Some p.
Proof.
  intros Hp Hno.
  destruct (add_cases init_model annotate_images get_image ref
              doc opts enable k p Hp) as (p' & Hp' & Hcase).
  destruct Hcase as [->|(m & ps & imgs & ds & j & d & n & _ & He & _ & Hj & _ & _)];
    [assumption|].
  destruct (extract_images_spec _ _ _ _ _ _ He) as (_ & _ & Hall).
  destruct (Hall _ _ Hj) as (_ & p0 & img & Hp0 & Hg & _).
  rewrite Nat.sub_0_r, Hp in Hp0. injection Hp0 as <-.
  now destruct (Hno img).
Qed.

(** X3.  The lists are zipped, so an answer of the wrong length is cut to
    fit: a picture whose place lies past the end of the answer is left as
    it was, and descriptions past the last picture change nothing. *)
Theorem answer_of_other_length_is_cut_to_fit doc opts m ps imgs ds :
  init_model opts = Return m ->
  extract_images get_image doc 0 (pictures doc) = (ps, imgs) ->
  annotate_images m imgs = Return ds ->
  (forall j k p, ps !! j = Some k -> length ds <= j ->
                 pictures doc !! k = Some p ->
                 pictures (fst (add_bedrock_picture_descriptions init_model
                     annotate_images get_image ref doc opts true)) !! k = Some p)
  /\ (forall (longer : PictureDescriptionBedrockApiModel -> list Image ->
                       result (list string)) extra,
        longer m imgs = Return (ds ++ extra)%list ->
        length imgs <= length ds ->
        add_bedrock_picture_descriptions init_model longer get_image ref
          doc opts true
        = add_bedrock_picture_descriptions init_model annotate_images
            get_image ref doc opts true).
Proof.
  intros Hm He Ha.
  destruct (extract_images_spec _ _ _ _ _ _ He) as (Hlen & Hnd & _).
  split.
  - intros j k p Hj Hshort Hp.
    rewrite (add_run _ _ _ _ _ _ _ _ _ _ Hm He Ha).
    rewrite splice_all_untouched; [assumption|].
    intros Hin. apply list_elem_of_lookup in Hin as [j' Hj'].
    rewrite list_lookup_fmap in Hj'.
    destruct (zip ps ds !! j') as [[k' d]|] eqn:Hz; [|discriminate].
    simpl in Hj'. injection Hj' as ->.
    apply lookup_zip_Some in Hz as [Hz1 Hz2].
    pose proof (NoDup_lookup _ _ _ _ Hnd Hj Hz1) as <-.
    apply lookup_lt_Some in Hz2. lia.
  - intros longer extra Hlonger Hfit.
    rewrite (add_run _ _ _ _ _ _ _ _ _ _ Hm He Ha).
    rewrite (add_run init_model longer _ _ _ _ _ _ _ _ Hm He Hlonger).
    f_equal. rewrite <- Hlen in Hfit. clear -Hfit.
    revert ds Hfit. induction ps as [|k ps IH]; intros [|d ds] Hfit;
      simpl in *; try reflexivity; try lia.
    f_equal. apply IH. lia.
Qed.

Lemma spliced_picture_node m d n p :
  self_ref (spliced_picture m d n p) = self_ref p
  /\ parent (spliced_picture m d n p) = parent p.
Proof.
  unfold spliced_picture. destruct (accepted d); [|now split].
  now destruct (captions p).
Qed.

(** X4.  A run keeps the pictures of the document in number and place,
    each under its pointer and parent; it leaves the captions of a picture
    that has some, and gives a picture that has none at most one reference,
    to a text item. *)
Theorem run_keeps_the_pictures doc opts enable :
  length (pictures (fst (add_bedrock_picture_descriptions init_model
                           annotate_images get_image ref doc opts enable)))
  = length (pictures doc)
  /\ forall k p,
       pictures doc !! k = Some p ->
       exists p',
         pictures (fst (add_bedrock_picture_descriptions init_model
                          annotate_images get_image ref doc opts enable)) !! k
         = Some p'
         /\ self_ref p' = self_ref p /\ parent p' = parent p
         /\ (captions p' = captions p
             \/ captions p = [] /\ exists n, captions p' = [new_text_ref n]).
Proof.
  split.
  - destruct (add_as_loop doc opts enable) as (m & work & _ & ->).
    apply splice_all_length.
  - intros k p Hp.
    destruct (add_cases init_model annotate_images get_image ref
                doc opts enable k p Hp) as (p' & Hp' & Hcase).
    exists p'. split; [assumption|].
    destruct Hcase as [->|(m & ps & imgs & ds & j & d & n & _ & _ & _ & _ & _ & ->)].
    + repeat split. now left.
    + destruct (spliced_picture_node m d n p) as [-> ->].
      split; [reflexivity|]. split; [reflexivity|].
      rewrite captions_spliced.
      destruct (captions p) as [|c cs]; [|now left].
      destruct (accepted d); [right | now left].
      split; [reflexivity | now exists n].
Qed.

(** X5.  A run removes no text item: each stays at its place under its
    pointer and label, and its text is at most extended at the end. *)
Theorem run_only_extends_the_texts doc opts enable j t :
  texts doc !! j = Some t ->
  exists t',
    texts (fst (add_bedrock_picture_descriptions init_model annotate_images
                  get_image ref doc opts enable)) !! j = Some t'
    /\ text_grows t t'.
Proof.
  intros Ht. destruct (add_as_loop doc opts enable) as (m & work & _ & ->).
  now apply splice_all_texts_grow.
Qed.

End Kept.

(** ** Pointers of text items *)

Lemma new_text_ref_inj n1 n2 :
  cref (new_text_ref n1) = cref (new_text_ref n2) -> n1 = n2.
Proof.
  unfold new_text_ref. simpl. intros H.
  apply String.app_inj in H. now apply pretty_nat_inj in H.
Qed.

(** In a document indexed by its pointers, the lookup the example uses
    finds the item at the place the pointer names. *)
Lemma find_ref_well_indexed doc n t :
  well_indexed doc -> texts doc !! n = Some t ->
  find_ref (cref (new_text_ref n)) (texts doc) = Some (n, t).
Proof.
  intros Hwi Ht. unfold find_ref. apply list_find_Some.
  split; [assumption|]. split; [now apply Hwi|].
  intros j y Hy Hlt Hself. rewrite (Hwi _ _ Hy) in Hself.
  apply new_text_ref_inj in Hself. lia.
Qed.

Lemma append_child_texts n r doc j t' :
  texts (append_child n r doc) !! j = Some t' ->
  exists t0, texts doc !! j = Some t0 /\ self_ref t' = self_ref t0
             /\ text_parent t' = text_parent t0.
Proof.
  destruct n as [j0|j0|]; simpl;
    [| intros Ht'; exists t'; now repeat split
     | intros Ht'; exists t'; now repeat split].
  rewrite list_lookup_alter. destruct (decide (j0 = j)) as [->|Hne].
  - destruct (texts doc !! j) as [t0|]; [|discriminate].
    simpl. intros [= <-]. exists t0. now repeat split.
  - intros Ht'. exists t'. now repeat split.
Qed.

Section Indexed.

Variable ref : RefItem -> result string.
Variable m : PictureDescriptionBedrockApiModel.

Lemma add_text_well_indexed lbl txt prt doc :
  well_indexed doc -> well_indexed (fst (add_text lbl txt prt doc)).
Proof.
  intros Hwi j t' Ht'. unfold add_text in Ht'. simpl in Ht'.
  apply append_child_texts in Ht' as (t0 & Ht0 & -> & _). simpl in Ht0.
  apply lookup_app_Some in Ht0 as [Ht0|[Hge Ht0]]; [now apply Hwi|].
  destruct (j - length (texts doc)) as [|j'] eqn:Hj; [|discriminate].
  simpl in Ht0. injection Ht0 as <-. simpl.
  replace j with (length (texts doc)) by lia. reflexivity.
Qed.

Lemma splice_well_indexed i d doc :
  well_indexed doc -> well_indexed (fst (splice ref m i d doc)).
Proof.
  intros Hwi. unfold splice.
  destruct (pictures doc !! i) as [p|]; [|exact Hwi].
  destruct (accepted d); [|exact Hwi].
  destruct (captions p) as [|first rest].
  - cbv beta iota zeta.
    match goal with
    | |- context [add_text ?l ?x ?n ?doc0] =>
        pose proof (add_text_well_indexed l x n doc0 Hwi) as Hnew;
        destruct (add_text l x n doc0) as [doc2 item]
    end.
    exact Hnew.
  - destruct (ref first) as [r|e]; [|exact Hwi].
    destruct (find_ref r _) as [[j0 t0]|]; [|exact Hwi].
    intros j t' Ht'. simpl in Ht'.
    rewrite list_lookup_alter in Ht'. destruct (decide (j0 = j)) as [->|Hne].
    + destruct (texts doc !! j) as [t1|] eqn:Ht1; [|discriminate].
      simpl in Ht'. injection Ht' as <-. exact (Hwi _ _ Ht1).
    + exact (Hwi _ _ Ht').
Qed.

Lemma splice_all_well_indexed work doc :
  well_indexed doc -> well_indexed (fst (splice_all ref m work doc)).
Proof.
  revert doc. induction work as [|[i d] rest IH]; intros doc Hwi; [exact Hwi|].
  rewrite splice_all_cons.
  destruct (snd (splice ref m i d doc)) as [u|e]; simpl.
  - apply IH. now apply splice_well_indexed.
  - now apply splice_well_indexed.
Qed.

(** The caption item a round creates is still there at the end of the loop,
    at its place, under its pointer and label, its text at most extended. *)
Lemma new_caption_lives work doc j k d p :
  NoDup work.*1 ->
  work !! j = Some (k, d) ->
  reached ref m work doc j ->
  pictures doc !! k = Some p ->
  accepted d = true -> captions p = [] ->
  exists t,
    texts (fst (splice_all ref m work doc))
      !! length (texts (before ref m work doc j)) = Some t
    /\ label t = CAPTION
    /\ exists s, text t = "Image Description:" +:+ d +:+ s.
Proof.
  intros Hnd Hw Hreach Hp Hacc Hc.
  pose proof (before_untouched ref m _ doc _ _ _ Hnd Hw) as Hbefore.
  rewrite Hp in Hbefore.
  destruct (splice_all_after ref m _ doc _ _ _ Hw Hreach) as (rest' & ->).
  destruct (splice_new_caption ref m k d _ p Hbefore Hacc Hc)
    as (t1 & Ht1 & _ & Hl1 & Htx1).
  destruct (splice_all_texts_grow ref m rest' _ _ _ Ht1)
    as (t2 & Ht2 & _ & Hl2 & s & Hs).
  exists t2. split; [exact Ht2|]. split; [congruence|].
  exists s. now rewrite Hs, Htx1, append_assoc.
Qed.

End Indexed.

Section Resolve.

Context {Image : Type}.
Variable init_model :
  PictureDescriptionBedrockApiOptions -> result PictureDescriptionBedrockApiModel.
Variable annotate_images :
  PictureDescriptionBedrockApiModel -> list Image -> result (list string).
Variable get_image : DoclingDocument -> PictureItem -> result (option Image).
Variable ref : RefItem -> result string.

(** X6.  In a document whose text items stand under the pointers of their
    places, a run keeps that numbering, and every caption reference it gives
    to a picture that had none resolves, by the lookup the example itself
    uses, to a text item of the final document that is labelled CAPTION and
    whose text begins with "Image Description:". *)
Theorem added_references_resolve doc opts enable :
  well_indexed doc ->
  well_indexed (fst (add_bedrock_picture_descriptions init_model
                       annotate_images get_image ref doc opts enable))
  /\ forall k p p' r,
       pictures doc !! k = Some p ->
       pictures (fst (add_bedrock_picture_descriptions init_model
                        annotate_images get_image ref doc opts enable)) !! k
       = Some p' ->
       captions p = [] -> r ∈ captions p' ->
       exists n t,
         find_ref (cref r)
           (texts (fst (add_bedrock_picture_descriptions init_model
                          annotate_images get_image ref doc opts enable)))
         = Some (n, t)
         /\ label t = CAPTION
         /\ startswith (text t) "Image Description:" = true.
Proof.
  intros Hwi.
  destruct (add_as_loop init_model annotate_images get_image ref doc opts enable)
    as (m & work & Hnd & ->).
  pose proof (splice_all_well_indexed ref m work doc Hwi) as Hwi'.
  split; [exact Hwi'|].
  intros k p p' r Hp Hp' Hc Hr.
  destruct (splice_all_cases_reached ref m work doc k p Hnd Hp)
    as [Hsame|(j & d & Hw & Hreach & Hspliced)].
  { rewrite Hsame in Hp'. injection Hp' as <-. rewrite Hc in Hr.
    now apply elem_of_nil in Hr. }
  rewrite Hspliced in Hp'. injection Hp' as <-.
  rewrite captions_spliced, Hc in Hr.
  destruct (accepted d) eqn:Hacc; [|now apply elem_of_nil in Hr].
  apply list_elem_of_singleton in Hr as ->.
  destruct (new_caption_lives ref m work doc j k d p Hnd Hw Hreach Hp Hacc Hc)
    as (t & Ht & Hl & s & Hs).
  exists (length (texts (before ref m work doc j))), t.
  split; [now apply find_ref_well_indexed|]. split; [exact Hl|].
  unfold startswith. rewrite Hs. apply prefix_append.
Qed.

End Resolve.

(** ** The new caption in the document tree *)

Lemma find_ref_lookup `{NodeItem A} (r : string) (items : list A) j t :
  find_ref r items = Some (j, t) -> items !! j = Some t /\ self_ref t = r.
Proof. unfold find_ref. intros Hf. apply list_find_Some in Hf. tauto. Qed.

Lemma find_parent_node_of doc p : node_of doc (find_parent doc p).
Proof.
  unfold find_parent. destruct (parent p) as [r|]; [|exact I].
  destruct (nonempty (cref r)); [|exact I].
  destruct (find_ref (cref r) (texts doc)) as [[j t]|] eqn:Ht.
  { apply find_ref_lookup in Ht as [Ht _]. simpl. now rewrite Ht. }
  destruct (find_ref (cref r) (groups doc)) as [[j g]|] eqn:Hg; [|exact I].
  apply find_ref_lookup in Hg as [Hg _]. simpl. now rewrite Hg.
Qed.

Lemma add_text_children lbl txt prt doc :
  node_of doc prt ->
  children_of (fst (add_text lbl txt prt doc)) prt
  = (children_of doc prt ++ [new_text_ref (length (texts doc))])%list.
Proof.
  intros Hn. unfold add_text. destruct prt as [j|j|]; simpl in *.
  - destruct Hn as [t Ht]. rewrite list_lookup_alter_eq.
    rewrite (lookup_app_l_Some _ _ _ _ Ht), Ht. reflexivity.
  - destruct Hn as [g Hg]. rewrite list_lookup_alter_eq, Hg. reflexivity.
  - reflexivity.
Qed.

Lemma add_text_parent lbl txt prt doc :
  node_of doc prt ->
  exists t, texts (fst (add_text lbl txt prt doc)) !! length (texts doc) = Some t
            /\ parent t = Some (get_ref doc prt).
Proof.
  intros Hn. destruct (add_text_new lbl txt prt doc) as (t & Ht & _).
  exists t. split; [exact Ht|].
  unfold add_text in Ht. simpl in Ht.
  apply append_child_texts in Ht as (t0 & Ht0 & _ & Hpar). simpl in Ht0.
  rewrite lookup_app_r in Ht0 by lia. rewrite Nat.sub_diag in Ht0.
  injection Ht0 as <-. exact Hpar.
Qed.

Section Tree.

Variable ref : RefItem -> result string.
Variable m : PictureDescriptionBedrockApiModel.

Lemma children_of_with_pictures f doc n :
  children_of (with_pictures f doc) n = children_of doc n.
Proof. now destruct n. Qed.

(** The round for a picture without a caption, spelled out. *)
Lemma splice_uncaptioned i d doc p :
  pictures doc !! i = Some p -> accepted d = true -> captions p = [] ->
  splice ref m i d doc
  = (with_pictures
       (alter (append_caption (new_text_ref (length (texts doc)))) i)
       (fst (add_text CAPTION (strip description_prefix +:+ d)
               (find_parent doc p)
               (with_pictures (alter (append_annotation (payload m d)) i) doc))),
     Return tt).
Proof.
  intros Hp Ha Hc. unfold splice. now rewrite Hp, Ha, Hc.
Qed.

(** X7.  The caption a round creates for a picture without one is linked
    into the document tree: the node found for the picture's parent (the
    body, when the picture has no parent or its pointer names neither a text
    item nor a group) gets the reference to the caption as its last child,
    and the caption's parent is the pointer of that node. *)
Theorem new_caption_is_linked_under_parent i d doc p :
  pictures doc !! i = Some p -> accepted d = true -> captions p = [] ->
  children_of (fst (splice ref m i d doc)) (find_parent doc p)
  = (children_of doc (find_parent doc p)
       ++ [new_text_ref (length (texts doc))])%list
  /\ (exists t,
        texts (fst (splice ref m i d doc)) !! length (texts doc) = Some t
        /\ parent t = Some (get_ref doc (find_parent doc p)))
  /\ (parent p = None -> find_parent doc p = body_node)
  /\ (forall r, parent p = Some r ->
        find_ref (cref r) (texts doc) = None ->
        find_ref (cref r) (groups doc) = None ->
        find_parent doc p = body_node).
Proof.
  intros Hp Ha Hc.
  pose proof (find_parent_node_of doc p) as Hn.
  rewrite (splice_uncaptioned i d doc p Hp Ha Hc). simpl fst.
  set (doc1 := with_pictures (alter (append_annotation (payload m d)) i) doc).
  split; [|split; [|split]].
  - rewrite children_of_with_pictures.
    exact (add_text_children _ _ _ doc1 Hn).
  - exact (add_text_parent _ _ _ doc1 Hn).
  - intros Hnone. unfold find_parent. now rewrite Hnone.
  - intros r Hr Ht Hg. unfold find_parent. rewrite Hr, Ht, Hg.
    now destruct (nonempty (cref r)).
Qed.

End Tree.

(** ** A round that raises *)

Section Stop.

Variable ref : RefItem -> result string.
Variable m : PictureDescriptionBedrockApiModel.

(** The loop ends with the first round that raises, as that round left the
    document. *)
Lemma splice_all_stops work doc j k d e :
  work !! j = Some (k, d) ->
  reached ref m work doc j ->
  snd (splice ref m k d (before ref m work doc j)) = Raise e ->
  splice_all ref m work doc
  = (fst (splice ref m k d (before ref m work doc j)), Raise e).
Proof.
  unfold reached, before.
  revert doc j. induction work as [|[i0 d0] rest IH]; intros doc j Hj Hr He.
  { discriminate. }
  destruct j as [|j]; simpl in Hj.
  - injection Hj as -> ->. simpl take in *. simpl splice_all in He |- *.
    simpl fst in *. destruct (splice ref m k d doc) as [doc1 [u|e1]]; simpl in *.
    + discriminate.
    + now injection He as ->.
  - change (take (S j) ((i0, d0) :: rest)) with ((i0, d0) :: take j rest) in *.
    rewrite splice_all_cons in Hr |- *.
    rewrite (splice_all_cons _ _ i0 d0 (take j rest)) in He |- *.
    destruct (snd (splice ref m i0 d0 doc)) as [u|e0]; [|discriminate].
    now apply IH.
Qed.

Lemma later_picture_untouched_before (ps : list nat) (ds : list string)
  doc j j' k' :
  NoDup ps -> ps !! j' = Some k' -> j <= j' ->
  pictures (before ref m (zip ps ds) doc j) !! k' = pictures doc !! k'.
Proof.
  intros Hnd Hj' Hle. unfold before. apply splice_all_untouched.
  rewrite fmap_take. intros Hin.
  apply list_elem_of_lookup in Hin as [i Hi].
  apply lookup_take_Some in Hi as [Hi Hlt].
  rewrite list_lookup_fmap in Hi.
  destruct (zip ps ds !! i) as [[k0 d0]|] eqn:Hz; [|discriminate].
  simpl in Hi. injection Hi as ->.
  apply lookup_zip_Some in Hz as [Hz _].
  pose proof (NoDup_lookup _ _ _ _ Hnd Hz Hj'). lia.
Qed.

End Stop.

Section Refused.

Context {Image : Type}.
Variable init_model :
  PictureDescriptionBedrockApiOptions -> result PictureDescriptionBedrockApiModel.
Variable annotate_images :
  PictureDescriptionBedrockApiModel -> list Image -> result (list string).
Variable get_image : DoclingDocument -> PictureItem -> result (option Image).
Variable ref : RefItem -> result string.

(** X9.  If, for a picture that has a caption and whose description passes
    the guard, reading [.ref] of the first caption reference raises, the
    exception escapes the function.  The document stays as it was at that
    moment: the picture already has its new annotation, no text item was
    touched by the round, and the pictures at later places of the batch are
    as they were before the run. *)
Theorem refused_ref_stops_the_run doc opts m ps imgs ds j k d p first rest e :
  init_model opts = Return m ->
  extract_images get_image doc 0 (pictures doc) = (ps, imgs) ->
  annotate_images m imgs = Return ds ->
  ps !! j = Some k -> ds !! j = Some d ->
  accepted d = true ->
  reached ref m (zip ps ds) doc j ->
  pictures doc !! k = Some p ->
  captions p = first :: rest ->
  ref first = Raise e ->
  snd (add_bedrock_picture_descriptions init_model annotate_images get_image
         ref doc opts true) = Raise e
  /\ pictures (fst (add_bedrock_picture_descriptions init_model annotate_images
                      get_image ref doc opts true)) !! k
     = Some (append_annotation (payload m d) p)
  /\ texts (fst (add_bedrock_picture_descriptions init_model annotate_images
                   get_image ref doc opts true))
     = texts (before ref m (zip ps ds) doc j)
  /\ forall j' k',
       j < j' -> ps !! j' = Some k' ->
       pictures (fst (add_bedrock_picture_descriptions init_model
                        annotate_images get_image ref doc opts true)) !! k'
       = pictures doc !! k'.
Proof.
  intros Hm He Ha Hj Hd Hacc Hreach Hp Hc Href.
  rewrite (add_run _ _ _ _ _ _ _ _ _ _ Hm He Ha).
  destruct (extract_images_spec _ _ _ _ _ _ He) as (_ & Hnd & _).
  assert (Hw : zip ps ds !! j = Some (k, d)) by now apply lookup_zip_Some.
  pose proof (later_picture_untouched_before ref m ps ds doc j j k
                Hnd Hj (Nat.le_refl j)) as Hbefore.
  rewrite Hp in Hbefore.
  assert (Hround : splice ref m k d (before ref m (zip ps ds) doc j)
                   = (with_pictures (alter (append_annotation (payload m d)) k)
                        (before ref m (zip ps ds) doc j), Raise e)).
  { unfold splice. now rewrite Hbefore, Hacc, Hc, Href. }
  rewrite (splice_all_stops ref m _ doc j k d e Hw Hreach)
    by now rewrite Hround.
  rewrite Hround. simpl. split; [reflexivity|]. split; [|split; [reflexivity|]].
  - now rewrite list_lookup_alter_eq, Hbefore.
  - intros j' k' Hlt Hj'.
    assert (Hne : k <> k').
    { intros <-. pose proof (NoDup_lookup _ _ _ _ Hnd Hj Hj'). lia. }
    rewrite list_lookup_alter_ne by assumption.
    apply (later_picture_untouched_before ref m ps ds doc j j' k');
      [assumption | assumption | lia].
Qed.

End Refused.

(** * The scripts *)

Section ImageScript.

Context {Image : Type}.
Variable init_model :
  PictureDescriptionBedrockApiOptions -> result PictureDescriptionBedrockApiModel.
Variable annotate_images :
  PictureDescriptionBedrockApiModel -> list Image -> result (list string).
Variable Image_open : string -> result Image.
Variable Path : string -> string.
Variable exists_ : string -> bool.

(** What [describe_image] returns, by the first of its steps that raises. *)
Lemma describe_image_returns image_path :
  exists description,
    describe_image init_model annotate_images Image_open image_path
    = Return description
    /\ (forall e, init_model describe_image_options = Raise e ->
                  description = "Error: " +:+ str e)
    /\ (forall bedrock_model e,
          init_model describe_image_options = Return bedrock_model ->
          Image_open image_path = Raise e ->
          description = "Error: " +:+ str e)
    /\ (forall bedrock_model img e,
          init_model describe_image_options = Return bedrock_model ->
          Image_open image_path = Return img ->
          annotate_images bedrock_model [img] = Raise e ->
          description = "Error: " +:+ str e).
Proof.
  unfold describe_image, try_except, bind.
  destruct (init_model describe_image_options) as [bm|e0].
  2: { eexists. split; [reflexivity|]. repeat split; congruence. }
  destruct (Image_open image_path) as [img|e0].
  2: { eexists. split; [reflexivity|]. repeat split; congruence. }
  destruct (annotate_images bm [img]) as [[|d rest]|e0] eqn:Ha;
    (eexists; split; [reflexivity|]); repeat split; congruence.
Qed.

(** X10.  Given an argument that names an existing file, the script ends
    normally whatever the remote service does: it prints its banner of five
    pieces with, in fourth place, what [describe_image] returned, and a
    failure to build the adapter, to open the image or to annotate shows
    only there, as a line "Error: " followed by the message. *)
Theorem image_script_ends_normally_on_remote_failure program argument rest :
  exists_ (Path argument) = true ->
  exists description,
    image_description.main init_model annotate_images Image_open Path exists_
      (program :: argument :: rest)
    = ([newline +:+ string_repeat "=" 80;
        "IMAGE DESCRIPTION FROM AWS BEDROCK";
        string_repeat "=" 80;
        description;
        string_repeat "=" 80 +:+ newline],
       Finished)
    /\ (forall e, init_model describe_image_options = Raise e ->
                  description = "Error: " +:+ str e)
    /\ (forall bedrock_model e,
          init_model describe_image_options = Return bedrock_model ->
          Image_open (Path argument) = Raise e ->
          description = "Error: " +:+ str e)
    /\ (forall bedrock_model img e,
          init_model describe_image_options = Return bedrock_model ->
          Image_open (Path argument) = Return img ->
          annotate_images bedrock_model [img] = Raise e ->
          description = "Error: " +:+ str e).
Proof.
  intros Hex.
  destruct (describe_image_returns (Path argument)) as (description & Hd & Hrest).
  exists description. split; [|exact Hrest].
  unfold image_description.main. now rewrite Hex, Hd.
Qed.

End ImageScript.

(** X11.  Without an argument, or with one that names no existing file, the
    script leaves through [sys.exit(1)] after printing one line, and what it
    does is the same whatever the adapter and the image library are: neither
    is reached.  With an empty argument list the usage line itself raises. *)
Theorem image_script_rejects_bad_arguments {Image1 Image2 : Type}
  (init1 : PictureDescriptionBedrockApiOptions ->
           result PictureDescriptionBedrockApiModel)
  (annotate1 : PictureDescriptionBedrockApiModel -> list Image1 ->
               result (list string))
  (open1 : string -> result Image1)
  (init2 : PictureDescriptionBedrockApiOptions ->
           result PictureDescriptionBedrockApiModel)
  (annotate2 : PictureDescriptionBedrockApiModel -> list Image2 ->
               result (list string))
  (open2 : string -> result Image2)
  (Path : string -> string) (exists_ : string -> bool) (argv : list string) :
  length argv < 2
  \/ (exists program argument rest,
        argv = program :: argument :: rest /\ exists_ (Path argument) = false) ->
  image_description.main init1 annotate1 open1 Path exists_ argv
  = image_description.main init2 annotate2 open2 Path exists_ argv
  /\ (argv = [] ->
      image_description.main init1 annotate1 open1 Path exists_ argv
      = ([], Raised IndexError))
  /\ (argv <> [] ->
      snd (image_description.main init1 annotate1 open1 Path exists_ argv)
      = SystemExit 1
      /\ length (fst (image_description.main init1 annotate1 open1 Path
                        exists_ argv)) = 1).
Proof.
  intros [Hshort|(program & argument & rest & -> & Hex)].
  - destruct argv as [|program [|argument rest]]; simpl in Hshort; try lia.
    + split; [reflexivity|]. split; [reflexivity|].
      intros Hne. now destruct Hne.
    + split; [reflexivity|]. split; [discriminate|]. now intros _.
  - unfold image_description.main. rewrite Hex. simpl.
    split; [reflexivity|]. split; [discriminate|]. now intros _.
Qed.

Section DocumentScript.

Context {Image : Type}.
Variable init_model :
  PictureDescriptionBedrockApiOptions -> result PictureDescriptionBedrockApiModel.
Variable annotate_images :
  PictureDescriptionBedrockApiModel -> list Image -> result (list string).
Variable get_image : DoclingDocument -> PictureItem -> result (option Image).
Variable ref : RefItem -> result string.
Variable convert : string -> result ConversionResult.
Variable joinpath : string -> string -> string.
Variable open_w : string -> option Exception.
Variable export_to_markdown : DoclingDocument -> result string.
Variable model_dump_json : DoclingDocument -> result string.
Variable yaml_dump : DoclingDocument -> string * option Exception.

Lemma write_text_frame path content (fs : gmap string string) q :
  q <> path ->
  fst (bedrock_image_description.write_text open_w path content fs) !! q
  = fs !! q.
Proof.
  intros Hne. unfold bedrock_image_description.write_text.
  destruct (open_w path); [reflexivity|].
  destruct content; simpl; now rewrite !lookup_insert_ne by congruence.
Qed.

Lemma write_yaml_frame path dumped (fs : gmap string string) q :
  q <> path ->
  fst (bedrock_image_description.write_yaml open_w path dumped fs) !! q
  = fs !! q.
Proof.
  intros Hne. unfold bedrock_image_description.write_yaml.
  destruct (open_w path); [reflexivity|].
  simpl. now rewrite !lookup_insert_ne by congruence.
Qed.

Lemma save_outputs_frame doc stem output_dir (fs : gmap string string) q :
  q ∉ output_paths joinpath output_dir stem ->
  fst (bedrock_image_description.save_outputs joinpath open_w
         export_to_markdown model_dump_json yaml_dump doc stem output_dir fs)
    !! q = fs !! q.
Proof.
  unfold output_paths. intros Hq.
  rewrite !not_elem_of_cons in Hq. destruct Hq as (Hmd & Hjson & Hyaml & _).
  unfold bedrock_image_description.save_outputs.
  pose proof (write_text_frame (joinpath output_dir (stem +:+ ".md"))
                (export_to_markdown doc) fs q Hmd) as H1.
  destruct (bedrock_image_description.write_text open_w
              (joinpath output_dir (stem +:+ ".md")) _ fs) as [fs1 [u|e]];
    simpl in H1; [|exact H1].
  pose proof (write_text_frame (joinpath output_dir (stem +:+ ".json"))
                (model_dump_json doc) fs1 q Hjson) as H2.
  destruct (bedrock_image_description.write_text open_w
              (joinpath output_dir (stem +:+ ".json")) _ fs1) as [fs2 [u'|e]];
    simpl in H2; [|simpl; congruence].
  rewrite write_yaml_frame by assumption. congruence.
Qed.

(** A document without pictures passes through the function as it is. *)
Lemma add_no_pictures doc opts :
  pictures doc = [] ->
  add_bedrock_picture_descriptions init_model annotate_images get_image ref
    doc opts true = (doc, Return tt).
Proof.
  intros Hnone. unfold add_bedrock_picture_descriptions. simpl.
  destruct (init_model opts); [|reflexivity]. now rewrite Hnone.
Qed.

(** After a successful conversion, [process_document] is the function on
    the converted document followed by the saving of its outputs. *)
Lemma process_document_success input_path output_dir fs c :
  convert input_path = Return c -> status c = "success" ->
  bedrock_image_description.process_document init_model annotate_images
    get_image ref convert joinpath open_w export_to_markdown model_dump_json
    yaml_dump input_path output_dir fs
  = match snd (add_bedrock_picture_descriptions init_model annotate_images
                 get_image ref (document c) process_document_options true) with
    | Raise e => (fs, Raise e)
    | Return _ =>
        bedrock_image_description.save_outputs joinpath open_w
          export_to_markdown model_dump_json yaml_dump
          (fst (add_bedrock_picture_descriptions init_model annotate_images
                  get_image ref (document c) process_document_options true))
          (file_stem c) output_dir fs
    end.
Proof.
  intros Hc Hs. unfold bedrock_image_description.process_document.
  rewrite Hc, Hs. simpl negb. cbv iota.
  destruct (pictures (document c)) as [|p ps] eqn:Hp.
  - now rewrite (add_no_pictures _ _ Hp).
  - now destruct (add_bedrock_picture_descriptions _ _ _ _ _ _ _) as [doc' [u|e]].
Qed.

(** X12.  [process_document] touches no file but its three outputs, and
    those only after a conversion whose status is "success" and a splicing
    that did not raise: if the content at a path is not what it was, the
    path is the markdown, JSON or YAML file named after the input's stem in
    the output directory. *)
Theorem process_document_writes_only_its_outputs input_path output_dir fs path :
  fst (bedrock_image_description.process_document init_model annotate_images
         get_image ref convert joinpath open_w export_to_markdown
         model_dump_json yaml_dump input_path output_dir fs) !! path
  <> fs !! path ->
  exists c,
    convert input_path = Return c
    /\ status c = "success"
    /\ snd (add_bedrock_picture_descriptions init_model annotate_images
              get_image ref (document c) process_document_options true)
       = Return tt
    /\ path ∈ output_paths joinpath output_dir (file_stem c).
Proof.
  intros Hdiff.
  destruct (convert input_path) as [c|e] eqn:Hc.
  2: { unfold bedrock_image_description.process_document in Hdiff.
       rewrite Hc in Hdiff. now destruct Hdiff. }
  destruct (String.eqb_spec (status c) "success") as [Hs|Hs].
  2: { unfold bedrock_image_description.process_document in Hdiff.
       rewrite Hc in Hdiff. apply String.eqb_neq in Hs. rewrite Hs in Hdiff.
       now destruct Hdiff. }
  rewrite (process_document_success _ _ _ _ Hc Hs) in Hdiff.
  exists c. split; [reflexivity|]. split; [assumption|].
  destruct (snd (add_bedrock_picture_descriptions _ _ _ _ _ _ _)) as [[]|e];
    [|now destruct Hdiff].
  split; [reflexivity|].
  destruct (decide (path ∈ output_paths joinpath output_dir (file_stem c)))
    as [Hin|Hnotin]; [assumption|].
  destruct Hdiff. now apply save_outputs_frame.
Qed.

(** X15.  Each output file is opened, and so emptied, before its content
    is computed: when the markdown serialiser raises, the markdown file is
    left empty and nothing else is written; when the JSON serialiser raises
    after the markdown was written, the JSON file is left empty; in both
    cases the exception escapes. *)
Theorem failed_export_leaves_an_empty_file doc stem output_dir fs e :
  open_w (joinpath output_dir (stem +:+ ".md")) = None ->
  (export_to_markdown doc = Raise e ->
   bedrock_image_description.save_outputs joinpath open_w export_to_markdown
     model_dump_json yaml_dump doc stem output_dir fs
   = (<[joinpath output_dir (stem +:+ ".md") := ""]> fs, Raise e))
  /\ (forall md,
        export_to_markdown doc = Return md ->
        open_w (joinpath output_dir (stem +:+ ".json")) = None ->
        model_dump_json doc = Raise e ->
        bedrock_image_description.save_outputs joinpath open_w
          export_to_markdown model_dump_json yaml_dump doc stem output_dir fs
        = (<[joinpath output_dir (stem +:+ ".json") := ""]>
             (<[joinpath output_dir (stem +:+ ".md") := md]> fs),
           Raise e)).
Proof.
  intros Hopen.
  unfold bedrock_image_description.save_outputs,
    bedrock_image_description.write_text.
  rewrite Hopen. split.
  - now intros ->.
  - intros md -> -> ->. simpl. now rewrite insert_insert_eq.
Qed.

End DocumentScript.

Section SaveOutputs.

Variable joinpath : string -> string -> string.
Variable open_w : string -> option Exception.
Variable export_to_markdown : DoclingDocument -> result string.
Variable model_dump_json : DoclingDocument -> result string.
Variable yaml_dump : DoclingDocument -> string * option Exception.

(** X13.  When the three output paths differ and can be opened and the
    serialisers succeed, saving returns normally and the markdown, JSON and
    YAML files each hold the serialisation of the one document saved; no
    later write undoes an earlier one. *)
Theorem saved_outputs_hold_one_document doc stem output_dir fs md json yaml :
  NoDup (output_paths joinpath output_dir stem) ->
  (forall path, path ∈ output_paths joinpath output_dir stem ->
                open_w path = None) ->
  export_to_markdown doc = Return md ->
  model_dump_json doc = Return json ->
  yaml_dump doc = (yaml, None) ->
  snd (bedrock_image_description.save_outputs joinpath open_w
         export_to_markdown model_dump_json yaml_dump doc stem output_dir fs)
  = Return tt
  /\ fst (bedrock_image_description.save_outputs joinpath open_w
            export_to_markdown model_dump_json yaml_dump doc stem output_dir fs)
       !! joinpath output_dir (stem +:+ ".md") = Some md
  /\ fst (bedrock_image_description.save_outputs joinpath open_w
            export_to_markdown model_dump_json yaml_dump doc stem output_dir fs)
       !! joinpath output_dir (stem +:+ ".json") = Some json
  /\ fst (bedrock_image_description.save_outputs joinpath open_w
            export_to_markdown model_dump_json yaml_dump doc stem output_dir fs)
       !! joinpath output_dir (stem +:+ ".yaml") = Some yaml.
Proof.
  intros Hnd Hopen Hmd Hjson Hyaml.
  unfold bedrock_image_description.save_outputs,
    bedrock_image_description.write_text, bedrock_image_description.write_yaml.
  unfold output_paths in Hnd, Hopen.
  rewrite !Hopen by (rewrite !elem_of_cons; tauto).
  rewrite Hmd, Hjson, Hyaml. simpl.
  apply NoDup_cons in Hnd as [Hmdne Hnd]. apply NoDup_cons in Hnd as [Hjsonne _].
  assert (Hmj : joinpath output_dir (stem +:+ ".md")
                <> joinpath output_dir (stem +:+ ".json")).
  { intros E. apply Hmdne. rewrite E. left. }
  assert (Hmy : joinpath output_dir (stem +:+ ".md")
                <> joinpath output_dir (stem +:+ ".yaml")).
  { intros E. apply Hmdne. rewrite E. right. left. }
  assert (Hjy : joinpath output_dir (stem +:+ ".json")
                <> joinpath output_dir (stem +:+ ".yaml")).
  { intros E. apply Hjsonne. rewrite E. left. }
  split; [reflexivity|]. split; [|split].
  - rewrite !(lookup_insert_ne _ (joinpath output_dir (stem +:+ ".yaml")))
      by congruence.
    rewrite !(lookup_insert_ne _ (joinpath output_dir (stem +:+ ".json")))
      by congruence.
    apply lookup_insert_eq.
  - rewrite !(lookup_insert_ne _ (joinpath output_dir (stem +:+ ".yaml")))
      by congruence.
    apply lookup_insert_eq.
  - apply lookup_insert_eq.
Qed.

End SaveOutputs.

Section DocumentMain.

Context {Image : Type}.
Variable init_model :
  PictureDescriptionBedrockApiOptions -> result PictureDescriptionBedrockApiModel.
Variable annotate_images :
  PictureDescriptionBedrockApiModel -> list Image -> result (list string).
Variable get_image : DoclingDocument -> PictureItem -> result (option Image).
Variable ref : RefItem -> result string.
Variable convert : string -> result ConversionResult.
Variable Path : string -> string.
Variable exists_ : string -> bool.
Variable joinpath : string -> string -> string.
Variable mkdir : string -> option Exception.
Variable open_w : string -> option Exception.
Variable export_to_markdown : DoclingDocument -> result string.
Variable model_dump_json : DoclingDocument -> result string.
Variable yaml_dump : DoclingDocument -> string * option Exception.

(** X16.  The document script leaves through [sys.exit] only with status
    1, after printing one line and before any file is touched, and only when
    the argument is missing or names no existing file.  An exception raised
    while converting, the subscript on the converter's results included,
    escapes the script with nothing printed and no file written. *)
Theorem document_script_exits argv fs :
  (forall code,
      snd (bedrock_image_description.main init_model annotate_images get_image
             ref convert Path exists_ joinpath mkdir open_w export_to_markdown
             model_dump_json yaml_dump argv fs) = SystemExit code ->
      code = 1%Z
      /\ bedrock_image_description.main init_model annotate_images get_image
           ref convert Path exists_ joinpath mkdir open_w export_to_markdown
           model_dump_json yaml_dump argv fs
         = (fst (fst (bedrock_image_description.main init_model annotate_images
                        get_image ref convert Path exists_ joinpath mkdir open_w
                        export_to_markdown model_dump_json yaml_dump argv fs)),
            fs, SystemExit 1)
      /\ length (fst (fst (bedrock_image_description.main init_model
                             annotate_images get_image ref convert Path exists_
                             joinpath mkdir open_w export_to_markdown
                             model_dump_json yaml_dump argv fs))) = 1
      /\ (length argv < 2
          \/ exists program argument rest,
               argv = program :: argument :: rest
               /\ exists_ (Path argument) = false))
  /\ (forall program argument rest e,
        argv = program :: argument :: rest ->
        exists_ (Path argument) = true ->
        mkdir (Path "./output") = None ->
        convert (Path argument) = Raise e ->
        bedrock_image_description.main init_model annotate_images get_image
          ref convert Path exists_ joinpath mkdir open_w export_to_markdown
          model_dump_json yaml_dump argv fs
        = ([], fs, Raised e)).
Proof.
  split.
  - intros code. unfold bedrock_image_description.main.
    destruct argv as [|program [|argument rest]]; simpl.
    + discriminate.
    + intros [= <-]. repeat split. left. lia.
    + destruct (exists_ (Path argument)) eqn:Hex; simpl.
      * destruct (mkdir (Path "./output")); [discriminate|].
        destruct (bedrock_image_description.process_document _ _ _ _ _ _ _ _ _
                    _ _ _ _) as [fs' [u|e]]; discriminate.
      * intros [= <-]. repeat split. right. now exists program, argument, rest.
  - intros program argument rest e -> Hex Hmk Hc.
    unfold bedrock_image_description.main. rewrite Hex, Hmk. simpl.
    unfold bedrock_image_description.process_document. now rewrite Hc.
Qed.

End DocumentMain.

(** * The further properties at work on the sample document *)

Lemma collected_pictures_are_the_retrievable_ones_witness :
  1 ∈ [0] <->
    exists p img,
      pictures (Sample.document [Sample.plain_picture; Sample.second_picture])
        !! 1 = Some p
      /\ Desk.first_image_only
           (Sample.document [Sample.plain_picture; Sample.second_picture]) p
         = Return (Some img).
Proof.
  exact (proj1 (collected_pictures_are_the_retrievable_ones
                  Desk.first_image_only
                  (Sample.document [Sample.plain_picture; Sample.second_picture])
                  [0] ["#/pictures/0"] eq_refl) 1).
Defined.

Lemma unretrievable_picture_is_never_modified_witness :
  pictures (fst (add_bedrock_picture_descriptions Sample.init_model
                   (Sample.answer ["A bar chart."; "A pie chart."])
                   Desk.first_image_only Sample.ref
                   (Sample.document [Sample.plain_picture; Sample.second_picture])
                   Sample.opts true)) !! 1
  = Some Sample.second_picture.
Proof.
  apply (unretrievable_picture_is_never_modified Sample.init_model
           (Sample.answer ["A bar chart."; "A pie chart."])
           Desk.first_image_only Sample.ref).
  - reflexivity.
  - intros img. discriminate.
Defined.

Lemma answer_of_other_length_is_cut_to_fit_witness :
  pictures (fst (add_bedrock_picture_descriptions Sample.init_model
                   (Sample.answer ["A bar chart."]) Sample.get_image Sample.ref
                   (Sample.document [Sample.plain_picture; Sample.second_picture])
                   Sample.opts true)) !! 1
  = Some Sample.second_picture.
Proof.
  apply (proj1 (answer_of_other_length_is_cut_to_fit Sample.init_model
                  (Sample.answer ["A bar chart."]) Sample.get_image Sample.ref
                  (Sample.document [Sample.plain_picture; Sample.second_picture])
                  Sample.opts Sample.model [0; 1]
                  ["#/pictures/0"; "#/pictures/1"] ["A bar chart."]
                  eq_refl eq_refl eq_refl) 1 1 Sample.second_picture);
    [reflexivity | simpl; lia | reflexivity].
Defined.

Lemma run_only_extends_the_texts_witness :
  exists t',
    texts (fst (add_bedrock_picture_descriptions Sample.init_model
                  (Sample.answer ["A bar chart."]) Sample.get_image Sample.ref
                  (Sample.document [Sample.captioned_picture])
                  Sample.opts true)) !! 0 = Some t'
    /\ text_grows Sample.figure_caption t'.
Proof.
  exact (run_only_extends_the_texts Sample.init_model
           (Sample.answer ["A bar chart."]) Sample.get_image Sample.ref
           (Sample.document [Sample.captioned_picture]) Sample.opts true
           0 Sample.figure_caption eq_refl).
Defined.

Lemma sample_document_well_indexed ps : well_indexed (Sample.document ps).
Proof.
  intros [|[|j]] t Ht; simpl in Ht; try discriminate.
  now injection Ht as <-.
Qed.

Lemma added_references_resolve_witness :
  well_indexed
    (fst (add_bedrock_picture_descriptions Sample.init_model
            (Sample.answer ["A bar chart."]) Sample.get_image Sample.ref
            (Sample.document [Sample.plain_picture]) Sample.opts true)).
Proof.
  exact (proj1 (added_references_resolve Sample.init_model
                  (Sample.answer ["A bar chart."]) Sample.get_image Sample.ref
                  (Sample.document [Sample.plain_picture]) Sample.opts true
                  (sample_document_well_indexed [Sample.plain_picture]))).
Defined.

Lemma new_caption_is_linked_under_parent_witness :
  children_of (fst (splice Sample.ref Sample.model 0 "A bar chart."
                      (Sample.document [Sample.plain_picture]))) body_node
  = [{| cref := "#/texts/0" |}; {| cref := "#/pictures/0" |};
     {| cref := "#/texts/1" |}].
Proof.
  exact (proj1 (new_caption_is_linked_under_parent Sample.ref Sample.model 0
                  "A bar chart." (Sample.document [Sample.plain_picture])
                  Sample.plain_picture eq_refl eq_refl eq_refl)).
Defined.

Lemma refused_ref_stops_the_run_witness :
  snd (add_bedrock_picture_descriptions Sample.init_model
         (Sample.answer ["A bar chart."; "A pie chart."]) Sample.get_image
         Sample.no_ref
         (Sample.document [Sample.captioned_picture; Sample.second_picture])
         Sample.opts true)
  = Raise {| str := "'RefItem' object has no attribute 'ref'" |}.
Proof.
  exact (proj1 (refused_ref_stops_the_run Sample.init_model
                  (Sample.answer ["A bar chart."; "A pie chart."])
                  Sample.get_image Sample.no_ref
                  (Sample.document [Sample.captioned_picture; Sample.second_picture])
                  Sample.opts Sample.model [0; 1]
                  ["#/pictures/0"; "#/pictures/1"]
                  ["A bar chart."; "A pie chart."] 0 0 "A bar chart."
                  Sample.captioned_picture {| cref := "#/texts/0" |} []
                  {| str := "'RefItem' object has no attribute 'ref'" |}
                  eq_refl eq_refl eq_refl eq_refl eq_refl eq_refl eq_refl
                  eq_refl eq_refl eq_refl)).
Defined.

Lemma image_script_ends_normally_on_remote_failure_witness :
  exists description,
    image_description.main Sample.failing_init (Sample.answer ["A cat."])
      Sample.Image_open Desk.Path Desk.exists_
      ["image_description.py"; "report.pdf"]
    = ([newline +:+ string_repeat "=" 80;
        "IMAGE DESCRIPTION FROM AWS BEDROCK";
        string_repeat "=" 80;
        description;
        string_repeat "=" 80 +:+ newline],
       Finished)
    /\ description = "Error: Unable to locate credentials".
Proof.
  destruct (image_script_ends_normally_on_remote_failure Sample.failing_init
              (Sample.answer ["A cat."]) Sample.Image_open Desk.Path
              Desk.exists_ "image_description.py" "report.pdf" [] eq_refl)
    as (description & Hmain & Hinit & _).
  exists description. split; [exact Hmain|].
  exact (Hinit {| str := "Unable to locate credentials" |} eq_refl).
Defined.

Lemma image_script_rejects_bad_arguments_witness :
  image_description.main Sample.init_model (Sample.answer ["A cat."])
    Sample.Image_open Desk.Path Desk.exists_
    ["image_description.py"; "missing.png"]
  = image_description.main Sample.failing_init Sample.throttled
      Sample.Image_open Desk.Path Desk.exists_
      ["image_description.py"; "missing.png"].
Proof.
  apply (image_script_rejects_bad_arguments Sample.init_model
           (Sample.answer ["A cat."]) Sample.Image_open
           Sample.failing_init Sample.throttled Sample.Image_open
           Desk.Path Desk.exists_ ["image_description.py"; "missing.png"]).
  right. exists "image_description.py", "missing.png", []. now split.
Defined.

Lemma desk_output_paths_differ :
  NoDup (output_paths Desk.joinpath "output" "report").
Proof.
  unfold output_paths. repeat (apply NoDup_cons; split);
    [| | | apply NoDup_nil_2];
    rewrite ?not_elem_of_cons; repeat split;
      try discriminate; apply not_elem_of_nil.
Qed.

Lemma process_document_writes_only_its_outputs_witness :
  exists c,
    Desk.convert "report.pdf" = Return c
    /\ status c = "success"
    /\ snd (add_bedrock_picture_descriptions Sample.init_model
              (Sample.answer ["A bar chart."]) Sample.get_image Sample.ref
              (document c) process_document_options true) = Return tt
    /\ "output/report.md" ∈ output_paths Desk.joinpath "output" (file_stem c).
Proof.
  apply (process_document_writes_only_its_outputs Sample.init_model
           (Sample.answer ["A bar chart."]) Sample.get_image Sample.ref
           Desk.convert Desk.joinpath Desk.open_w Desk.export_to_markdown
           Desk.model_dump_json Desk.yaml_dump "report.pdf" "output" ∅
           "output/report.md").
  rewrite lookup_empty.
  rewrite (process_document_success Sample.init_model
             (Sample.answer ["A bar chart."]) Sample.get_image Sample.ref
             Desk.convert Desk.joinpath Desk.open_w Desk.export_to_markdown
             Desk.model_dump_json Desk.yaml_dump "report.pdf" "output" ∅
             Desk.converted eq_refl eq_refl).
  vm_compute. discriminate.
Defined.

Lemma saved_outputs_hold_one_document_witness :
  fst (bedrock_image_description.save_outputs Desk.joinpath Desk.open_w
         Desk.export_to_markdown Desk.model_dump_json Desk.yaml_dump
         (Sample.document [Sample.plain_picture]) "report" "output" ∅)
    !! "output/report.md" = Some "Figure 1".
Proof.
  apply (saved_outputs_hold_one_document Desk.joinpath Desk.open_w
           Desk.export_to_markdown Desk.model_dump_json Desk.yaml_dump
           (Sample.document [Sample.plain_picture]) "report" "output" ∅
           "Figure 1" "{texts: 1}" "texts: 1"
           desk_output_paths_differ (fun _ _ => eq_refl)
           eq_refl eq_refl eq_refl).
Defined.

Lemma failed_export_leaves_an_empty_file_witness :
  bedrock_image_description.save_outputs Desk.joinpath Desk.open_w
    Desk.broken_markdown Desk.model_dump_json Desk.yaml_dump
    (Sample.document [Sample.plain_picture]) "report" "output" ∅
  = (<["output/report.md" := ""]> ∅, Raise {| str := "cannot serialise" |}).
Proof.
  apply (proj1 (failed_export_leaves_an_empty_file Desk.joinpath Desk.open_w
                  Desk.broken_markdown Desk.model_dump_json Desk.yaml_dump
                  (Sample.document [Sample.plain_picture]) "report" "output" ∅
                  {| str := "cannot serialise" |} eq_refl)).
  reflexivity.
Defined.

Lemma document_script_exits_witness :
  bedrock_image_description.main Sample.init_model
    (Sample.answer ["A bar chart."]) Sample.get_image Sample.ref
    Desk.not_subscriptable Desk.Path Desk.exists_ Desk.joinpath Desk.mkdir
    Desk.open_w Desk.export_to_markdown Desk.model_dump_json Desk.yaml_dump
    ["bedrock_image_description.py"; "report.pdf"] ∅
  = ([], ∅, Raised {| str := "'generator' object is not subscriptable" |}).
Proof.
  apply (proj2 (document_script_exits Sample.init_model
                  (Sample.answer ["A bar chart."]) Sample.get_image Sample.ref
                  Desk.not_subscriptable Desk.Path Desk.exists_ Desk.joinpath
                  Desk.mkdir Desk.open_w Desk.export_to_markdown
                  Desk.model_dump_json Desk.yaml_dump
                  ["bedrock_image_description.py"; "report.pdf"] ∅)
           "bedrock_image_description.py" "report.pdf" []);
    reflexivity.
Defined.
